(** * insta-data-grabber: the scraper's normalizers, retry runner and
      orchestrator, embedded from [src/index.ts] and the two earlier
      variants kept in [src/unnamed/part_000].

    Conventions of the embedding.
    - A JavaScript string is the list of its UTF-16 code units.
    - A JavaScript number is an IEEE 754 binary64 value, taken from the
      Standard Library's [SpecFloat] (precision 53, [emax] 1024).  Loop
      counters and the millisecond arguments of the retry runner, which the
      code only ever uses as small integers, are integers of [Z].
    - Asynchronous code is awaited sequentially everywhere in the source, so
      a method is a state transformer that either returns or throws. *)

From Stdlib Require Import ZArith NArith List Bool Lia String Ascii SpecFloat.
Import ListNotations.

Local Open Scope Z_scope.

(** ** JavaScript strings *)

Module JsString.

Definition code_unit := N.
Definition jsstring := list code_unit.

(** A literal of the source, written as a Rocq string of ASCII characters. *)
Definition str (s : string) : jsstring :=
  List.map N_of_ascii (list_ascii_of_string s).

Definition eqb (a b : jsstring) : bool :=
  if list_eq_dec N.eq_dec a b then true else false.

Definition in_range (lo hi c : N) : bool := (N.leb lo c && N.leb c hi)%bool.

(** [0-9], the class [\d] of a regular expression without the unicode flag. *)
Definition is_digit (c : code_unit) : bool := in_range 48 57 c.

(** [\w] is [A-Za-z0-9_]. *)
Definition is_word (c : code_unit) : bool :=
  (in_range 65 90 c || in_range 97 122 c || is_digit c || N.eqb c 95)%bool.

(** [\s], which is also the StrWhiteSpaceChar of [parseFloat] and [parseInt]:
    TAB, LF, VT, FF, CR, SP, NBSP, U+1680, U+2000..U+200A, U+2028, U+2029,
    U+202F, U+205F, U+3000 and U+FEFF. *)
Definition is_space (c : code_unit) : bool :=
  (in_range 9 13 c || N.eqb c 32 || N.eqb c 160 || N.eqb c 5760
   || in_range 8192 8202 c || N.eqb c 8232 || N.eqb c 8233 || N.eqb c 8239
   || N.eqb c 8287 || N.eqb c 12288 || N.eqb c 65279)%bool.

(** [String.prototype.toLowerCase], one code unit at a time.  The Basic Latin
    and Latin-1 capitals move down by 32; KELVIN SIGN becomes [k]; LATIN
    CAPITAL LETTER I WITH DOT ABOVE becomes [i] followed by COMBINING DOT
    ABOVE.  These are all the characters whose lower case contains a Basic
    Latin code unit; the other case pairs of Unicode, which the functions
    below cannot tell from any other non-Latin code unit, are left as they
    are. *)
Definition lower_unit (c : code_unit) : list code_unit :=
  if in_range 65 90 c then [c + 32]%N
  else if (in_range 192 222 c && negb (N.eqb c 215))%bool then [c + 32]%N
  else if N.eqb c 8490 then [107]%N
  else if N.eqb c 304 then [105; 775]%N
  else [c].

Definition toLowerCase (s : jsstring) : jsstring := flat_map lower_unit s.

(** [s.replace(/[...]/g, "")] for a character class: the code units of the
    class are dropped. *)
Definition remove_class (cls : code_unit -> bool) (s : jsstring) : jsstring :=
  filter (fun c => negb (cls c)) s.

Fixpoint starts_with (p s : jsstring) : bool :=
  match p, s with
  | [], _ => true
  | _ :: _, [] => false
  | a :: p', b :: s' => (N.eqb a b && starts_with p' s')%bool
  end.

(** [String.prototype.includes]. *)
Fixpoint includes (s p : jsstring) : bool :=
  (starts_with p s ||
   match s with
   | [] => false
   | _ :: s' => includes s' p
   end)%bool.

(** The longest prefix whose code units satisfy [cls], and what follows it. *)
Fixpoint span (cls : code_unit -> bool) (s : jsstring) : jsstring * jsstring :=
  match s with
  | [] => ([], [])
  | c :: s' =>
      if cls c then let (a, b) := span cls s' in (c :: a, b) else ([], s)
  end.

End JsString.

(** ** JavaScript numbers *)

Module Number.
Import JsString.

Definition prec : Z := 53.
Definition emax : Z := 1024.

Definition number := spec_float.

Definition NaN : number := S754_nan.
Definition zero : number := S754_zero false.

(** The Number value of an integer: the nearest binary64, ties to even. *)
Definition of_Z (z : Z) : number := binary_normalize prec emax z 0 false.

(** The Number value of the quotient of two positive integers, rounded once:
    [SFdiv]'s core works on mantissas of any size. *)
Definition of_ratio (p q : positive) : number :=
  SFdiv prec emax (S754_finite false p 0) (S754_finite false q 0).

Definition mul : number -> number -> number := SFmul prec emax.
Definition add : number -> number -> number := SFadd prec emax.
Definition neg : number -> number := SFopp.

Definition is_nan (x : number) : bool :=
  match x with S754_nan => true | _ => false end.

(** ToBoolean on a number: [NaN], [+0] and [-0] are falsy. *)
Definition truthy (x : number) : bool :=
  match x with
  | S754_nan | S754_zero _ => false
  | _ => true
  end.

(** [a || b] on numbers. *)
Definition or_else (a b : number) : number := if truthy a then a else b.

(** The sign bit is set on a value that is not [NaN]. *)
Definition is_negative (x : number) : bool :=
  match x with
  | S754_nan => false
  | S754_zero s | S754_infinity s | S754_finite s _ _ => s
  end.

(** [Number.isInteger]. *)
Definition is_integer (x : number) : bool :=
  match x with
  | S754_nan | S754_infinity _ => false
  | S754_zero _ => true
  | S754_finite _ m e =>
      (0 <=? e) || (Z.pos m mod 2 ^ (- e) =? 0)
  end.

(** The value of a digit of radix up to 36. *)
Definition digit_value (c : code_unit) : option Z :=
  if in_range 48 57 c then Some (Z.of_N c - 48)
  else if in_range 97 122 c then Some (Z.of_N c - 87)
  else if in_range 65 90 c then Some (Z.of_N c - 55)
  else None.

Definition is_radix_digit (radix : Z) (c : code_unit) : bool :=
  match digit_value c with
  | Some d => d <? radix
  | None => false
  end.

(** The mathematical value of a run of digits, most significant first. *)
Definition digits_value (radix : Z) (ds : jsstring) : Z :=
  fold_left
    (fun acc c => acc * radix + match digit_value c with Some d => d | None => 0 end)
    ds 0.

(** The Number value of [m * 10 ^ k] for an integer [m >= 0]. *)
Definition of_decimal (m k : Z) : number :=
  match m with
  | Z.pos p =>
      if 0 <=? k then of_Z (m * 10 ^ k)
      else of_ratio p (Z.to_pos (10 ^ (- k)))
  | _ => zero
  end.

Definition apply_sign (negative : bool) (x : number) : number :=
  if negative then neg x else x.

(** A leading [+] or [-]. *)
Definition read_sign (s : jsstring) : bool * jsstring :=
  match s with
  | 45%N :: s' => (true, s')
  | 43%N :: s' => (false, s')
  | _ => (false, s)
  end.

(** The ExponentPart of a StrDecimalLiteral, when one is there: [e] or [E],
    an optional sign and at least one digit. *)
Definition read_exponent (s : jsstring) : Z :=
  match s with
  | c :: s' =>
      if (N.eqb c 101 || N.eqb c 69)%bool then
        let (negative, s'') := read_sign s' in
        let (ds, _) := span is_digit s'' in
        match ds with
        | [] => 0
        | _ => if negative then - digits_value 10 ds else digits_value 10 ds
        end
      else 0
  | [] => 0
  end.

(** [parseFloat]: leading white space is skipped and the longest prefix that is
    a StrDecimalLiteral is converted; there is none when the result is
    [NaN]. *)
Definition parseFloat (s : jsstring) : number :=
  let (_, trimmed) := span is_space s in
  let (negative, body) := read_sign trimmed in
  if starts_with (str "Infinity") body then S754_infinity negative
  else
    let (ip, rest) := span is_digit body in
    let (fp, rest') :=
      match rest with
      | 46%N :: after => span is_digit after
      | _ => ([], rest)
      end in
    match ip, fp with
    | [], [] => NaN
    | _, _ =>
        let ex := read_exponent rest' in
        apply_sign negative
          (of_decimal (digits_value 10 (ip ++ fp)%list)
             (ex - Z.of_nat (List.length fp)))
    end.

(** [parseInt(s, radix)]; [radix = 0] stands for an omitted radix. *)
Definition parseInt (s : jsstring) (radix : Z) : number :=
  let (_, trimmed) := span is_space s in
  let (negative, body) := read_sign trimmed in
  if ((radix =? 0) || ((2 <=? radix) && (radix <=? 36)))%bool then
    let strip := ((radix =? 0) || (radix =? 16))%bool in
    let hex := (strip && (starts_with (str "0x") body
                          || starts_with (str "0X") body))%bool in
    let r := if hex then 16 else if radix =? 0 then 10 else radix in
    let body' := if hex then skipn 2 body else body in
    let (ds, _) := span (is_radix_digit r) body' in
    match ds with
    | [] => NaN
    | _ => apply_sign negative (of_Z (digits_value r ds))
    end
  else NaN.

End Number.


(** ** The normalizers: pure methods of [SocialMediaScraper] *)

Module Normalizers.
Import JsString Number.

(** The class [[\w\u0590-\u05ff]] of [hashtagRegex]. *)
Definition hashtag_char (c : code_unit) : bool :=
  (is_word c || in_range 1424 1535 c)%bool.

(** One attempt of [/#[\w\u0590-\u05ff]+/] at the head of [s]: the match and
    the text after it.  The class is matched greedily, and giving code units
    back never helps because nothing follows the class in the pattern. *)
Definition exec_hashtag (s : jsstring) : option (jsstring * jsstring) :=
  match s with
  | 35%N :: s' =>
      let (w, rest) := span hashtag_char s' in
      match w with
      | [] => None
      | _ => Some (35%N :: w, rest)
      end
  | _ => None
  end.

(** The loop of [String.prototype.match] for a global pattern: the search
    resumes after each match and one code unit further after a failure. *)
Fixpoint match_all (fuel : nat) (s : jsstring) : list jsstring :=
  match fuel with
  | O => []
  | S fuel' =>
      match exec_hashtag s with
      | Some (m, rest) => m :: match_all fuel' rest
      | None =>
          match s with
          | [] => []
          | _ :: s' => match_all fuel' s'
          end
      end
  end.

(** [text.match(hashtagRegex)]: [null] when nothing matches. *)
Definition match_hashtags (text : jsstring) : option (list jsstring) :=
  match match_all (S (List.length text)) text with
  | [] => None
  | ms => Some ms
  end.

(** [extractHashtags], the same in all three variants
    (src/index.ts:75-78, part_000:75-78 and 525-528). *)
Definition extractHashtags (text : jsstring) : list jsstring :=
  match match_hashtags text with
  | Some ms => ms
  | None => []
  end.

(** [parseLikeCount] (src/index.ts:80-93, part_000:80-93).  Nothing in the
    [try] block throws on a string, so the [catch] branch is never taken. *)
Definition parseLikeCount (text : jsstring) : number :=
  let cleanText :=
    toLowerCase (remove_class (fun c => (N.eqb c 44 || is_space c)%bool) text) in
  if includes cleanText (str "k") then mul (parseFloat cleanText) (of_Z 1000)
  else if includes cleanText (str "m") then
    mul (parseFloat cleanText) (of_Z 1000000)
  else or_else (parseInt cleanText 0) zero.

(** The table [multipliers] of [parseCount]. *)
Definition multipliers (unit : code_unit) : number :=
  if N.eqb unit 107 then of_Z 1000
  else if N.eqb unit 109 then of_Z 1000000
  else of_Z 1000000000.

Definition is_unit (c : code_unit) : bool :=
  (N.eqb c 107 || N.eqb c 109 || N.eqb c 98)%bool.

Definition is_digit_or_dot (c : code_unit) : bool :=
  (is_digit c || N.eqb c 46)%bool.

(** [normalized.match(/^([\d.]+)([kmb])?$/)]: the two groups, the second one
    absent when the text ends after the first. *)
Definition match_count (normalized : jsstring)
  : option (jsstring * option code_unit) :=
  let (num, rest) := span is_digit_or_dot normalized in
  match num with
  | [] => None
  | _ =>
      match rest with
      | [] => Some (num, None)
      | [u] => if is_unit u then Some (num, Some u) else None
      | _ => None
      end
  end.

(** [parseCount] (part_000:466-476). *)
Definition parseCount (count : jsstring) : number :=
  let normalized := remove_class (fun c => N.eqb c 44) (toLowerCase count) in
  match match_count normalized with
  | None => zero
  | Some (num, unit) =>
      let value := parseFloat num in
      match unit with
      | Some u => mul value (multipliers u)
      | None => value
      end
  end.

End Normalizers.

(** ** The records of the scraper's output *)

Module Data.
Import JsString Number.

(** ["image" | "video" | "carousel" | "reel"] *)
Inductive PostType := image | video | carousel | reel.

Record PostData := {
  type : PostType;
  likes : number;
  hashtags : list jsstring;
  caption : jsstring;
  postUrl : jsstring;
  timestamp : jsstring
}.

Record UserProfile := {
  username : jsstring;
  bio : jsstring;
  posts : list PostData;
  followersCount : number;
  followingCount : number
}.

End Data.

(** ** Awaited effects: results, exceptions and the trace of a run *)

Module Async.
Import JsString Number.

(** A thrown value: an [Error] object with its message, or [undefined]. *)
Inductive exn := Undefined | Error (message : string).

Inductive result (A : Type) := Ok (a : A) | Throw (e : exn).
Arguments Ok {A} a.
Arguments Throw {A} e.

(** What the console receives; the template strings of the source are kept as
    the message kind and the values interpolated into it. *)
Inductive message :=
  | NavigatingToProfile (username : jsstring)
  | BioExtracted
  | FollowerCountsExtracted
  | FoundPosts (n : nat)
  | ProcessedPost (link : jsstring)
  | ErrorProcessingPost (link : jsstring)
  | ErrorScrapingPost (link : jsstring)
  | ErrorScrapingProfile (username : jsstring)
  | TimeoutWaitingForSelector (selector : jsstring)
  | FailedToInitialize
  | NoCookieDialog
  | LoggedIn
  | LoginFailed.

(** The events of a run, in the order in which they happen.  [Attempt] is a
    ghost event: the retry runner is about to call its operation. *)
Inductive event :=
  | Attempt
  | Timeout (ms : Z)            (* [setTimeout(resolve, ms)], awaited *)
  | Delay (ms : number)         (* [this.delay(ms)] of the variant with login *)
  | ConsoleLog (m : message)
  | ConsoleError (m : message) (e : option exn).

Section Monad.
Variable W : Type.

(** A method run from a world [w]: its result, the world it leaves and the
    events it produced. *)
Definition M (A : Type) := W -> result A * W * list event.

Definition ret {A} (a : A) : M A := fun w => (Ok a, w, []).

Definition throw {A} (e : exn) : M A := fun w => (Throw e, w, []).

Definition bind {A B} (m : M A) (f : A -> M B) : M B :=
  fun w =>
    let '(r, w1, t1) := m w in
    match r with
    | Ok a => let '(r2, w2, t2) := f a w1 in (r2, w2, t1 ++ t2)
    | Throw e => (Throw e, w1, t1)
    end.

(** [try { m } catch (e) { handler e }] *)
Definition try_catch {A} (m : M A) (handler : exn -> M A) : M A :=
  fun w =>
    let '(r, w1, t1) := m w in
    match r with
    | Ok a => (Ok a, w1, t1)
    | Throw e => let '(r2, w2, t2) := handler e w1 in (r2, w2, t1 ++ t2)
    end.

(** [try { m } finally { cleanup }] *)
Definition try_finally {A} (m : M A) (cleanup : M unit) : M A :=
  fun w =>
    let '(r, w1, t1) := m w in
    let '(rc, w2, t2) := cleanup w1 in
    match rc with
    | Ok _ => (r, w2, t1 ++ t2)
    | Throw e => (Throw e, w2, t1 ++ t2)
    end.

Definition emit (ev : event) : M unit := fun w => (Ok tt, w, [ev]).

(** A call into the driven browser, which produces no event of its own. *)
Definition call {A} (f : W -> result A * W) : M A :=
  fun w => let (r, w') := f w in (r, w', []).

End Monad.

Arguments ret {W A} a.
Arguments throw {W A} e.
Arguments bind {W A B} m f.
Arguments try_catch {W A} m handler.
Arguments try_finally {W A} m cleanup.
Arguments emit {W} ev.
Arguments call {W A} f.

Definition timeouts (t : list event) : list Z :=
  flat_map (fun ev => match ev with Timeout ms => [ms] | _ => [] end) t.

Definition attempts (t : list event) : nat :=
  List.length (filter (fun ev => match ev with Attempt => true | _ => false end) t).

End Async.

Declare Scope async_scope.
Delimit Scope async_scope with async.
Notation "x <- m ;; k" := (Async.bind m (fun x => k))
  (at level 61, m at next level, right associativity) : async_scope.
Notation "m ;;; k" := (Async.bind m (fun _ => k))
  (at level 61, right associativity) : async_scope.

(** ** The resilient operation runner *)

Module Retry.
Import Async.
Local Open Scope async_scope.

Section Runner.
Variables W T : Type.
Variable operation : W -> result T * W.
Variable retries : Z.

(** The [for] loop of [retryOperation] (src/index.ts:101-111) from counter
    [i] on, with [remaining] iterations left before [i < retries] fails.  The
    body either leaves the function with the operation's value or falls out
    of the [catch] block with the error and the delay for the next round. *)
Fixpoint retry_loop (remaining : nat) (i delay : Z) (lastError : exn) : M W T :=
  match remaining with
  | O => throw lastError
  | S remaining' =>
      emit Attempt ;;;
      step <- try_catch
                (v <- call operation ;; ret (inl v))
                (fun error =>
                   if i <? retries - 1
                   then emit (Timeout delay) ;;; ret (inr (error, delay * 2))
                   else ret (inr (error, delay))) ;;
      match step with
      | inl v => ret v
      | inr (error, delay') => retry_loop remaining' (i + 1) delay' error
      end
  end.

(** [retryOperation(operation, retries, delay)] (src/index.ts:95-113);
    [lastError] starts out [undefined]. *)
Definition retryOperation (delay : Z) : M W T :=
  retry_loop (Z.to_nat retries) 0 delay Undefined.

End Runner.

Arguments retryOperation {W T} operation retries delay.
Arguments retry_loop {W T} operation retries remaining i delay lastError.

(** The defaults [retries = 3] and [delay = 1000] of the signature. *)
Definition retryOperation_default {W T} (operation : W -> result T * W) : M W T :=
  retryOperation operation 3 1000.

End Retry.

(** ** The driven capability: Puppeteer and the DOM of the page *)

Module Puppeteer.
Import JsString Number Async.

(** The double quote of a selector such as [input[name="username"]]. *)
Definition dq : string := String (ascii_of_nat 34) EmptyString.

(** The options of [puppeteer.launch]. *)
Record LaunchOptions := {
  viewport : Z * Z;
  args : list string;
  ignoreHTTPSErrors : bool
}.

(** What a request handler does with a request. *)
Inductive RequestAction := abort | continue.

(** [navigate], [evaluate], [waitForSelector] and the other primitives the
    scraper consumes, as state transformers of an external world, with the
    DOM interface the page functions use.  [evaluate] gives the document the
    page function runs against, or rejects.  Every navigation of the source
    waits for [networkidle0]; [goto] takes the optional [timeout]. *)
Record Driver := {
  World : Type;
  Browser : Type;
  Page : Type;
  Document : Type;
  Element : Type;
  launch : LaunchOptions -> World -> result Browser * World;
  newPage : Browser -> World -> result Page * World;
  browser_close : Browser -> World -> result unit * World;
  setViewport : Page -> Z * Z -> World -> result unit * World;
  setUserAgent : Page -> string -> World -> result unit * World;
  setExtraHTTPHeaders :
    Page -> list (string * string) -> World -> result unit * World;
  setRequestInterception : Page -> bool -> World -> result unit * World;
  (* [page.on("request", handler)]; the handler is given by its decision on
     the request's resource type *)
  on_request : Page -> (jsstring -> RequestAction) -> World -> World;
  goto : Page -> jsstring -> option Z -> World -> result unit * World;
  page_waitForSelector :
    Page -> jsstring -> option Z -> World -> result unit * World;
  waitForNavigation : Page -> World -> result unit * World;
  waitForTimeout : Page -> Z -> World -> result unit * World;
  (* [page.$(selector)]: whether a handle came back *)
  page_query : Page -> jsstring -> World -> result bool * World;
  (* [page.click(selector)], also the click on the handle of a selector *)
  click : Page -> jsstring -> World -> result unit * World;
  page_type : Page -> jsstring -> jsstring -> Z -> World -> result unit * World;
  evaluate : Page -> World -> result Document * World;
  Math_random : World -> number * World;
  querySelector : Document -> jsstring -> option Element;
  querySelectorAll : Document -> jsstring -> list Element;
  textContent : Element -> option jsstring;
  innerText : Element -> option jsstring;
  href : Element -> jsstring;
  dateTime : Element -> option jsstring;
  pathname : Document -> jsstring
}.

(** [x || d] on a string that may be missing: the empty string is falsy. *)
Definition or_default (x : option jsstring) (d : jsstring) : jsstring :=
  match x with
  | Some (c :: s) => c :: s
  | _ => d
  end.

(** Whether [querySelector] returned an element rather than [null]. *)
Definition found {E} (e : option E) : bool :=
  match e with Some _ => true | None => false end.

(** [e?.prop] *)
Definition opt_chain {E} (e : option E) (prop : E -> option jsstring)
  : option jsstring :=
  match e with
  | Some el => prop el
  | None => None
  end.

End Puppeteer.

(** ** src/index.ts: the variant with the retry runner *)

Module Index.
Import JsString Number Normalizers Data Async Retry Puppeteer.
Local Open Scope async_scope.

Section Scraper.
Variable D : Driver.

(** The fields of a [SocialMediaScraper]. *)
Record Scraper := {
  browser : option (Browser D);
  page : option (Page D)
}.

(** [new SocialMediaScraper()] *)
Definition new_scraper : Scraper := {| browser := None; page := None |}.

(** A method runs on the object and the world of the browser. *)
Definition State : Type := Scraper * World D.

Local Abbreviation M := (Async.M State).

Definition this : M Scraper := fun st => (Ok (fst st), st, []).

Definition set_browser (b : Browser D) : M unit :=
  fun st => (Ok tt, ({| browser := Some b; page := page (fst st) |}, snd st), []).

Definition set_page (p : Page D) : M unit :=
  fun st => (Ok tt, ({| browser := browser (fst st); page := Some p |}, snd st), []).

(** A call of the driver, which leaves the object alone. *)
Definition drive {A} (f : World D -> result A * World D)
  : State -> result A * State :=
  fun st => let (r, w) := f (snd st) in (r, (fst st, w)).

(** [this.page!.f(...)] inside a closure: the field is read when the closure
    runs, and a call on [null] is a [TypeError]. *)
Definition on_page {A} (f : Page D -> World D -> result A * World D)
  : State -> result A * State :=
  fun st =>
    match page (fst st) with
    | Some p => drive (f p) st
    | None => (Throw (Error "TypeError: Cannot read properties of null"), st)
    end.

(** [await this.page!.evaluate(fn)] for a page function [fn] that reads the
    document. *)
Definition evaluate_with {A} (fn : Document D -> A)
  : State -> result A * State :=
  fun st =>
    let (r, st') := on_page (evaluate D) st in
    (match r with Ok doc => Ok (fn doc) | Throw e => Throw e end, st').

Definition launch_options : LaunchOptions := {|
  viewport := (1280, 800);
  args := ["--no-sandbox"; "--disable-setuid-sandbox";
           "--disable-dev-shm-usage"; "--disable-accelerated-2d-canvas";
           "--disable-gpu"; "--no-first-run"; "--no-zygote";
           "--single-process"]%string;
  ignoreHTTPSErrors := true
|}.

Definition user_agent : string :=
  "Mozilla/5.0 (Windows NT 10.0; Win64; x64) AppleWebKit/537.36 (KHTML, like Gecko) Chrome/119.0.0.0 Safari/537.36".

(** The request handler of [initialize] (src/index.ts:50-57). *)
Definition request_handler (resourceType : jsstring) : RequestAction :=
  if existsb (JsString.eqb resourceType)
       [str "image"; str "stylesheet"; str "font"]
  then abort else continue.

(** [initialize] (src/index.ts:24-62). *)
Definition initialize : M unit :=
  try_catch
    (b <- call (drive (launch D launch_options)) ;;
     set_browser b ;;;
     p <- call (drive (newPage D b)) ;;
     set_page p ;;;
     call (drive (setUserAgent D p user_agent)) ;;;
     call (drive (setRequestInterception D p true)) ;;;
     call (drive (fun w => (Ok tt, on_request D p request_handler w))))
    (fun error =>
       emit (ConsoleError FailedToInitialize (Some error)) ;;;
       throw error).

(** [waitForSelector] (src/index.ts:64-73), with the default [timeout]. *)
Definition waitForSelector (selector : jsstring) : M bool :=
  self <- this ;;
  match page self with
  | None => throw (Error "Page not initialized")
  | Some p =>
      try_catch
        (call (drive (page_waitForSelector D p selector (Some 5000))) ;;;
         ret true)
        (fun _ =>
           emit (ConsoleError (TimeoutWaitingForSelector selector) None) ;;;
           ret false)
  end.

(** The page function of [determinePostType] (src/index.ts:243-250). *)
Definition post_type_of (doc : Document D) : PostType :=
  if found (querySelector D doc (str "video")) then video
  else if found (querySelector D doc
                   (str ("button[aria-label=" ++ dq ++ "Next" ++ dq ++ "]")))
       then carousel
  else if found (querySelector D doc
                   (str ("[role=" ++ dq ++ "button" ++ dq ++ "][tabindex="
                         ++ dq ++ "0" ++ dq ++ "]")))
       then reel
  else image.

(** [determinePostType] (src/index.ts:238-251). *)
Definition determinePostType : M PostType :=
  self <- this ;;
  match page self with
  | None => throw (Error "Page not initialized")
  | Some p =>
      doc <- call (drive (evaluate D p)) ;;
      ret (post_type_of doc)
  end.

(** [close] (src/index.ts:253-257). *)
Definition close : M unit :=
  self <- this ;;
  match browser self with
  | Some b => call (drive (browser_close D b))
  | None => ret tt
  end.

(** The address of a profile: [`https://www.instagram.com/${username}/`]. *)
Definition profile_url (username : jsstring) : jsstring :=
  (str "https://www.instagram.com/" ++ username ++ str "/")%list.

(** The page function that reads the bio (src/index.ts:138-141). *)
Definition read_bio (doc : Document D) : jsstring :=
  match querySelector D doc (str "header section span") with
  | Some bioElement => or_default (textContent D bioElement) []
  | None => []
  end.

(** The page functions that read the two counts (src/index.ts:148-153 and
    157-162), for the list item [n]. *)
Definition read_count (n : string) (doc : Document D) : number :=
  match querySelector D doc
          (str ("header section ul li:nth-child(" ++ n ++ ") span")) with
  | Some element => parseInt (or_default (textContent D element) (str "0")) 10
  | None => zero
  end.

(** The page function that collects the post links (src/index.ts:172-175). *)
Definition read_post_links (doc : Document D) : list jsstring :=
  firstn 4 (map (href D) (querySelectorAll D doc (str "article a"))).

(** What the page function of a post returns (src/index.ts:188-201). *)
Record RawPost := {
  raw_caption : jsstring;
  raw_likes : jsstring;
  raw_timestamp : jsstring
}.

Definition read_post (doc : Document D) : RawPost := {|
  raw_caption :=
    or_default (opt_chain (querySelector D doc (str "article h1"))
                          (textContent D)) [];
  raw_likes :=
    or_default (opt_chain (querySelector D doc (str "article section span"))
                          (textContent D)) (str "0");
  raw_timestamp :=
    or_default (opt_chain (querySelector D doc (str "time")) (dateTime D)) []
|}.

(** The [try] block of the loop over the post links (src/index.ts:183-218):
    the post it pushes.  Nothing after the [push] can throw. *)
Definition process_post (link : jsstring) : M PostData :=
  retryOperation_default (on_page (fun p => goto D p link None)) ;;;
  postData <- retryOperation_default (evaluate_with read_post) ;;
  let hashtags := extractHashtags (raw_caption postData) in
  ty <- determinePostType ;;
  let post := {|
    type := ty;
    likes := parseLikeCount (raw_likes postData);
    hashtags := hashtags;
    caption := raw_caption postData;
    postUrl := link;
    timestamp := raw_timestamp postData
  |} in
  emit (ConsoleLog (ProcessedPost link)) ;;;
  emit (Timeout 1000) ;;;
  ret post.

(** The loop [for (const link of postLinks)] (src/index.ts:181-223) on the
    array [posts]. *)
Fixpoint process_posts (postLinks : list jsstring) (posts : list PostData)
  : M (list PostData) :=
  match postLinks with
  | [] => ret posts
  | link :: rest =>
      posts' <- try_catch
                  (post <- process_post link ;; ret (posts ++ [post])%list)
                  (fun error =>
                     emit (ConsoleError (ErrorProcessingPost link) (Some error)) ;;;
                     ret posts) ;;
      process_posts rest posts'
  end.

(** [scrapeUserProfile] (src/index.ts:115-236). *)
Definition scrapeUserProfile (username : jsstring) : M UserProfile :=
  self <- this ;;
  match page self with
  | None => throw (Error "Scraper not initialized")
  | Some _ =>
      try_catch
        (emit (ConsoleLog (NavigatingToProfile username)) ;;;
         retryOperation_default
           (on_page (fun p => goto D p (profile_url username) (Some 30000))) ;;;
         loginRequired <-
           waitForSelector (str ("input[name=" ++ dq ++ "username" ++ dq ++ "]")) ;;
         (if loginRequired : bool
          then throw (Error "Login required to view this profile")
          else ret tt) ;;;
         waitForSelector (str "header section") ;;;
         bio <- retryOperation_default (evaluate_with read_bio) ;;
         emit (ConsoleLog BioExtracted) ;;;
         followersCount <- retryOperation_default (evaluate_with (read_count "2")) ;;
         followingCount <- retryOperation_default (evaluate_with (read_count "3")) ;;
         emit (ConsoleLog FollowerCountsExtracted) ;;;
         postLinks <- retryOperation_default (evaluate_with read_post_links) ;;
         emit (ConsoleLog (FoundPosts (List.length postLinks))) ;;;
         posts <- process_posts postLinks [] ;;
         ret {| username := username;
                bio := bio;
                posts := posts;
                followersCount := followersCount;
                followingCount := followingCount |})
        (fun error =>
           emit (ConsoleError (ErrorScrapingProfile username) (Some error)) ;;;
           throw error)
  end.

End Scraper.

Arguments browser {D} s.
Arguments page {D} s.

End Index.

(** ** src/unnamed/part_000, lines 259-554: the variant with login *)

Module Auth.
Import JsString Number Normalizers Data Async Puppeteer.
Local Open Scope async_scope.

Record LoginCredentials := {
  cred_username : jsstring;
  cred_password : jsstring
}.

Section Scraper.
Variable D : Driver.

Record Scraper := {
  browser : option (Browser D);
  page : option (Page D);
  isLoggedIn : bool
}.

Definition new_scraper : Scraper :=
  {| browser := None; page := None; isLoggedIn := false |}.

Definition State : Type := Scraper * World D.

Local Abbreviation M := (Async.M State).

Definition this : M Scraper := fun st => (Ok (fst st), st, []).

Definition set_browser (b : Browser D) : M unit :=
  fun st =>
    (Ok tt,
     ({| browser := Some b; page := page (fst st);
         isLoggedIn := isLoggedIn (fst st) |}, snd st), []).

Definition set_page (p : Page D) : M unit :=
  fun st =>
    (Ok tt,
     ({| browser := browser (fst st); page := Some p;
         isLoggedIn := isLoggedIn (fst st) |}, snd st), []).

Definition set_isLoggedIn (b : bool) : M unit :=
  fun st =>
    (Ok tt,
     ({| browser := browser (fst st); page := page (fst st);
         isLoggedIn := b |}, snd st), []).

Definition drive {A} (f : World D -> result A * World D) : M A :=
  fun st => let (r, w) := f (snd st) in (r, (fst st, w), []).

(** [Math.random()] *)
Definition random : M number :=
  fun st => let (x, w) := Math_random D (snd st) in (Ok x, (fst st, w), []).

(** [delay] (part_000:288-290) *)
Definition delay (ms : number) : M unit := emit (Delay ms).

Definition launch_options : LaunchOptions := {|
  viewport := (1920, 1080);
  args := ["--no-sandbox"; "--disable-setuid-sandbox";
           "--disable-dev-shm-usage"; "--disable-accelerated-2d-canvas";
           "--disable-gpu"; "--window-size=1920,1080"]%string;
  ignoreHTTPSErrors := false
|}.

Definition user_agent : string :=
  "Mozilla/5.0 (Windows NT 10.0; Win64; x64) AppleWebKit/537.36 (KHTML, like Gecko) Chrome/120.0.0.0 Safari/537.36".

Definition extra_headers : list (string * string) :=
  [("Accept-Language", "en-US,en;q=0.9");
   ("Accept",
    "text/html,application/xhtml+xml,application/xml;q=0.9,image/webp,*/*;q=0.8");
   ("Connection", "keep-alive");
   ("Accept-Encoding", "gzip, deflate, br")]%string.

Definition sel_username : jsstring :=
  str ("input[name=" ++ dq ++ "username" ++ dq ++ "]").
Definition sel_password : jsstring :=
  str ("input[name=" ++ dq ++ "password" ++ dq ++ "]").
Definition sel_cookie_button : jsstring :=
  str ("[role=" ++ dq ++ "dialog" ++ dq ++ "] button:first-child").
Definition sel_submit : jsstring :=
  str ("button[type=" ++ dq ++ "submit" ++ dq ++ "]").
Definition sel_alert : jsstring :=
  str ("p[role=" ++ dq ++ "alert" ++ dq ++ "]").

(** [login] (part_000:336-392) *)
Definition login (credentials : LoginCredentials) : M unit :=
  self <- this ;;
  match page self with
  | None => throw (Error "Page not initialized")
  | Some p =>
      try_catch
        (drive (goto D p (str "https://www.instagram.com/accounts/login/")
                  (Some 30000)) ;;;
         try_catch
           (cookieButton <- drive (page_query D p sel_cookie_button) ;;
            if cookieButton : bool
            then drive (click D p sel_cookie_button) ;;; delay (of_Z 1000)
            else ret tt)
           (fun _ => emit (ConsoleLog NoCookieDialog)) ;;;
         drive (page_waitForSelector D p sel_username None) ;;;
         drive (page_waitForSelector D p sel_password None) ;;;
         drive (page_type D p sel_username (cred_username credentials) 100) ;;;
         drive (page_type D p sel_password (cred_password credentials) 150) ;;;
         drive (click D p sel_submit) ;;;
         drive (waitForNavigation D p) ;;;
         loginError <- drive (page_query D p sel_alert) ;;
         (if loginError : bool
          then throw (Error "Login failed - incorrect credentials")
          else ret tt) ;;;
         set_isLoggedIn true ;;;
         emit (ConsoleLog LoggedIn) ;;;
         delay (of_Z 3000))
        (fun error =>
           emit (ConsoleError LoginFailed (Some error)) ;;;
           throw error)
  end.

(** [initialize] (part_000:292-334) *)
Definition initialize (credentials : option LoginCredentials) : M unit :=
  try_catch
    (b <- drive (launch D launch_options) ;;
     set_browser b ;;;
     p <- drive (newPage D b) ;;
     set_page p ;;;
     drive (setViewport D p (1920, 1080)) ;;;
     drive (setUserAgent D p user_agent) ;;;
     drive (setExtraHTTPHeaders D p extra_headers) ;;;
     match credentials with
     | Some c => login c
     | None => ret tt
     end)
    (fun error =>
       emit (ConsoleError FailedToInitialize (Some error)) ;;;
       throw error).

(** The page function of [determinePostType] (part_000:517-522). *)
Definition post_type_of (doc : Document D) : PostType :=
  if found (querySelector D doc (str "video")) then video
  else if found (querySelector D doc
                   (str ("[aria-label=" ++ dq ++ "Next" ++ dq ++ "]")))
       then carousel
  else if includes (pathname D doc) (str "/reel/") then reel
  else image.

(** [determinePostType] (part_000:512-523) *)
Definition determinePostType : M PostType :=
  self <- this ;;
  match page self with
  | None => throw (Error "Page not initialized")
  | Some p =>
      doc <- drive (evaluate D p) ;;
      ret (post_type_of doc)
  end.

(** [getPostLinks] (part_000:478-485) *)
Definition getPostLinks : M (list jsstring) :=
  self <- this ;;
  match page self with
  | None => throw (Error "Page not initialized")
  | Some p =>
      doc <- drive (evaluate D p) ;;
      ret (map (href D) (querySelectorAll D doc (str "article a")))
  end.

Record RawPost := {
  raw_caption : jsstring;
  raw_likes : jsstring;
  raw_timestamp : jsstring
}.

(** The page function of [scrapePost] (part_000:493-500). *)
Definition read_post (doc : Document D) : RawPost := {|
  raw_caption :=
    or_default (opt_chain (querySelector D doc (str "h1")) (innerText D)) [];
  raw_likes :=
    or_default (opt_chain (querySelector D doc (str "section span span"))
                          (innerText D)) (str "0");
  raw_timestamp :=
    or_default (opt_chain (querySelector D doc (str "time")) (dateTime D)) []
|}.

(** [scrapePost] (part_000:487-510) *)
Definition scrapePost (url : jsstring) : M PostData :=
  self <- this ;;
  match page self with
  | None => throw (Error "Page not initialized")
  | Some p =>
      drive (goto D p url None) ;;;
      delay (of_Z 2000) ;;;
      doc <- drive (evaluate D p) ;;
      let postData := read_post doc in
      ty <- determinePostType ;;
      ret {| type := ty;
             likes := parseCount (raw_likes postData);
             hashtags := extractHashtags (raw_caption postData);
             caption := raw_caption postData;
             postUrl := url;
             timestamp := raw_timestamp postData |}
  end.

Record RawProfile := {
  raw_bio : jsstring;
  raw_followers : jsstring;
  raw_following : jsstring
}.

(** The page function that reads the profile (part_000:419-433). *)
Definition read_profile (doc : Document D) : RawProfile := {|
  raw_bio :=
    or_default (opt_chain (querySelector D doc (str "h1")) (innerText D)) [];
  raw_followers :=
    or_default (opt_chain (querySelector D doc (str "li:nth-child(2) span span"))
                          (innerText D)) (str "0");
  raw_following :=
    or_default (opt_chain (querySelector D doc (str "li:nth-child(3) span span"))
                          (innerText D)) (str "0")
|}.

(** The loop over [postLinks.slice(0, 4)] (part_000:443-451) on the array
    [posts].  The [delay] after the [push] does not throw. *)
Fixpoint scrape_posts (links : list jsstring) (posts : list PostData)
  : M (list PostData) :=
  match links with
  | [] => ret posts
  | link :: rest =>
      posts' <- try_catch
                  (postData <- scrapePost link ;;
                   r <- random ;;
                   delay (add (mul r (of_Z 1000)) (of_Z 500)) ;;;
                   ret (posts ++ [postData])%list)
                  (fun error =>
                     emit (ConsoleError (ErrorScrapingPost link) (Some error)) ;;;
                     ret posts) ;;
      scrape_posts rest posts'
  end.

Definition profile_url (username : jsstring) : jsstring :=
  (str "https://www.instagram.com/" ++ username ++ str "/")%list.

(** [scrapeUserProfile] (part_000:394-464) *)
Definition scrapeUserProfile (username : jsstring) : M UserProfile :=
  self <- this ;;
  match page self with
  | None => throw (Error "Scraper not initialized")
  | Some p =>
      try_catch
        (r <- random ;;
         delay (add (mul r (of_Z 2000)) (of_Z 1000)) ;;;
         drive (goto D p (profile_url username) (Some 300000)) ;;;
         (if isLoggedIn self then ret tt
          else
            loginWall <- drive (page_query D p (str "text/Log in to Instagram")) ;;
            if loginWall : bool
            then throw (Error "Login required to view this profile")
            else ret tt) ;;;
         delay (of_Z 3000) ;;;
         doc <- drive (evaluate D p) ;;
         let profileData := read_profile doc in
         let followersCount := parseCount (raw_followers profileData) in
         let followingCount := parseCount (raw_following profileData) in
         postLinks <- getPostLinks ;;
         posts <- scrape_posts (firstn 4 postLinks) [] ;;
         ret {| username := username;
                bio := raw_bio profileData;
                posts := posts;
                followersCount := followersCount;
                followingCount := followingCount |})
        (fun error =>
           emit (ConsoleError (ErrorScrapingProfile username) (Some error)) ;;;
           throw error)
  end.

(** [close] (part_000:530-534) *)
Definition close : M unit :=
  self <- this ;;
  match browser self with
  | Some b => drive (browser_close D b)
  | None => ret tt
  end.

End Scraper.

Arguments browser {D} s.
Arguments page {D} s.
Arguments isLoggedIn {D} s.

End Auth.

(** ** src/unnamed/part_000, lines 1-258: the first variant

    Its fields, [initialize], [waitForSelector], the two normalizers, the
    page functions and [close] are, line for line, those of src/index.ts; the
    definitions of [Index] stand for them.  [scrapeUserProfile] calls the
    page directly, without the retry runner, and gives every post the type
    ["image"]. *)

Module Basic.
Import JsString Number Normalizers Data Async Puppeteer.
Local Open Scope async_scope.

Section Scraper.
Variable D : Driver.

Local Abbreviation M := (Async.M (Index.State D)).

(** The loop [for (const link of postLinks)] (part_000:151-189) on the array
    [posts].  The post is pushed before [waitForTimeout] is awaited, so when
    that call throws the [catch] block runs with the post already in the
    array. *)
Fixpoint process_posts (p : Page D) (postLinks : list jsstring)
  (posts : list PostData) : M (list PostData) :=
  match postLinks with
  | [] => ret posts
  | link :: rest =>
      let handler (kept : list PostData) (error : exn) :=
        emit (ConsoleError (ErrorProcessingPost link) (Some error)) ;;;
        ret kept in
      posts' <- try_catch
                  (call (Index.drive D (goto D p link None)) ;;;
                   doc <- call (Index.drive D (evaluate D p)) ;;
                   let postData := Index.read_post D doc in
                   let hashtags :=
                     extractHashtags (Index.raw_caption postData) in
                   let pushed :=
                     (posts ++
                      [{| type := image;
                          likes := parseLikeCount (Index.raw_likes postData);
                          hashtags := hashtags;
                          caption := Index.raw_caption postData;
                          postUrl := link;
                          timestamp := Index.raw_timestamp postData |}])%list in
                   emit (ConsoleLog (ProcessedPost link)) ;;;
                   try_catch
                     (call (Index.drive D (waitForTimeout D p 1000)) ;;;
                      ret pushed)
                     (handler pushed))
                  (handler posts) ;;
      process_posts p rest posts'
  end.

(** [scrapeUserProfile] (part_000:95-202) *)
Definition scrapeUserProfile (username : jsstring) : M UserProfile :=
  self <- Index.this D ;;
  match Index.page self with
  | None => throw (Error "Scraper not initialized")
  | Some p =>
      try_catch
        (emit (ConsoleLog (NavigatingToProfile username)) ;;;
         call (Index.drive D
                 (goto D p (Index.profile_url username) (Some 30000))) ;;;
         loginRequired <-
           Index.waitForSelector D
             (str ("input[name=" ++ dq ++ "username" ++ dq ++ "]")) ;;
         (if loginRequired : bool
          then throw (Error "Login required to view this profile")
          else ret tt) ;;;
         Index.waitForSelector D (str "header section") ;;;
         doc <- call (Index.drive D (evaluate D p)) ;;
         let bio := Index.read_bio D doc in
         emit (ConsoleLog BioExtracted) ;;;
         doc <- call (Index.drive D (evaluate D p)) ;;
         let followersCount := Index.read_count D "2" doc in
         doc <- call (Index.drive D (evaluate D p)) ;;
         let followingCount := Index.read_count D "3" doc in
         emit (ConsoleLog FollowerCountsExtracted) ;;;
         doc <- call (Index.drive D (evaluate D p)) ;;
         let postLinks := Index.read_post_links D doc in
         emit (ConsoleLog (FoundPosts (List.length postLinks))) ;;;
         posts <- process_posts p postLinks [] ;;
         ret {| username := username;
                bio := bio;
                posts := posts;
                followersCount := followersCount;
                followingCount := followingCount |})
        (fun error =>
           emit (ConsoleError (ErrorScrapingProfile username) (Some error)) ;;;
           throw error)
  end.

End Scraper.
End Basic.

(** * Properties *)

(** ** Strings and the shapes of the texts the normalizers read *)

Module TextShapes.
Import JsString Number Normalizers.

(** The code units of a maximal run at the head of a text. *)
Definition take_while (cls : code_unit -> bool) (s : jsstring) : jsstring :=
  fst (span cls s).

(** The "#token" that starts at index [i] of [s], if one does: [#] followed
    by the longest non-empty run of word characters. *)
Definition token_at (s : jsstring) (i : nat) : option jsstring :=
  match skipn i s with
  | 35%N :: after =>
      match take_while hashtag_char after with
      | [] => None
      | w => Some (35%N :: w)
      end
  | _ => None
  end.

(** All the "#token" occurrences of [s], by increasing index. *)
Definition all_tokens (s : jsstring) : list jsstring :=
  flat_map (fun i => match token_at s i with Some t => [t] | None => [] end)
           (seq 0 (List.length s)).

(** [s] has no "#token" occurrence. *)
Definition no_token (s : jsstring) : bool :=
  forallb (fun i => match token_at s i with Some _ => false | None => true end)
          (seq 0 (List.length s)).

(** The tokens met when every index is tried in turn. *)
Fixpoint scan (s : jsstring) : list jsstring :=
  match s with
  | [] => []
  | _ :: s' =>
      match exec_hashtag s with
      | Some (m, _) => m :: scan s'
      | None => scan s'
      end
  end.

(** A decimal literal: integer digits, and fraction digits when there is a
    point. *)
Record decimal := {
  int_digits : jsstring;
  frac_digits : option jsstring
}.

Definition decimal_ok (d : decimal) : bool :=
  (forallb is_digit (int_digits d)
   && match frac_digits d with
      | None => negb (Nat.eqb (List.length (int_digits d)) 0)
      | Some fp =>
          forallb is_digit fp
          && negb (Nat.eqb (List.length (int_digits d) + List.length fp) 0)
      end)%bool.

Definition decimal_text (d : decimal) : jsstring :=
  match frac_digits d with
  | None => int_digits d
  | Some fp => (int_digits d ++ 46%N :: fp)%list
  end.

(** The Number value of the literal: its digits read as an integer, scaled
    down by the number of fraction digits. *)
Definition decimal_value (d : decimal) : number :=
  match frac_digits d with
  | None => of_decimal (digits_value 10 (int_digits d)) 0
  | Some fp =>
      of_decimal (digits_value 10 (int_digits d ++ fp)%list)
                 (- Z.of_nat (List.length fp))
  end.

(** The optional unit suffix, its text and its factor. *)
Inductive unit_suffix := no_unit | unit_k | unit_m | unit_b.

Definition suffix_text (u : unit_suffix) : jsstring :=
  match u with
  | no_unit => []
  | unit_k => [107%N]
  | unit_m => [109%N]
  | unit_b => [98%N]
  end.

Definition scaled (v : number) (u : unit_suffix) : number :=
  match u with
  | no_unit => v
  | unit_k => mul v (of_Z 1000)
  | unit_m => mul v (of_Z 1000000)
  | unit_b => mul v (of_Z 1000000000)
  end.

(** The text that [parseCount] matches: lower-cased, commas removed. *)
Definition count_normalized (count : jsstring) : jsstring :=
  remove_class (fun c => N.eqb c 44) (toLowerCase count).

(** A text of the shape [[0-9.]+[kmb]?], read from its end. *)
Definition count_shaped (s : jsstring) : bool :=
  match rev s with
  | [] => false
  | u :: before =>
      if is_unit u
      then (negb (Nat.eqb (List.length before) 0)
            && forallb is_digit_or_dot before)%bool
      else forallb is_digit_or_dot s
  end.

End TextShapes.

(** ** What a run of the retry runner is compared with *)

Module RetrySpec.
Import Async.

Section Outcomes.
Variables W T : Type.
Variable operation : W -> result T * W.

(** The world in which the call number [k] (from 0) of the operation starts,
    when the calls follow each other from [w]. *)
Fixpoint state_before (w : W) (k : nat) : W :=
  match k with
  | O => w
  | S k' => state_before (snd (operation w)) k'
  end.

(** What the call number [k] gives. *)
Definition outcome (w : W) (k : nat) : result T :=
  fst (operation (state_before w k)).

Definition fails (w : W) (k : nat) : Prop :=
  exists error, outcome w k = Throw error.

(** The error of the call number [k], when it fails. *)
Definition error_at (w : W) (k : nat) : exn :=
  match outcome w k with
  | Throw error => error
  | Ok _ => Undefined
  end.

End Outcomes.

Arguments state_before {W T} operation w k.
Arguments outcome {W T} operation w k.
Arguments fails {W T} operation w k.
Arguments error_at {W T} operation w k.

(** [n] attempts with a wait between two of them, the waits doubling from
    [delay]: the events of a run whose first [n - 1] attempts fail. *)
Fixpoint attempts_trace (delay : Z) (n : nat) : list event :=
  match n with
  | O => []
  | S n' =>
      Attempt ::
      match n' with
      | O => []
      | S _ => Timeout delay :: attempts_trace (delay * 2) n'
      end
  end.

(** [delay], [2 * delay], [4 * delay], ...: [n] waits. *)
Definition backoff (delay : Z) (n : nat) : list Z :=
  map (fun j => delay * 2 ^ Z.of_nat j) (seq 0 n).

(** The time spent in a list of waits. *)
Definition total (waits : list Z) : Z := fold_right Z.add 0 waits.

End RetrySpec.

(** ** Operations used to exercise the retry runner *)

Module RetryExamples.
Import Async.

(** An operation on a call counter that fails on its first [n] calls and
    then returns the number of the call. *)
Definition flaky (n : nat) (calls : nat) : result nat * nat :=
  (if Nat.ltb calls n then Throw (Error "unreachable") else Ok calls, S calls).

(** An operation that always fails, with an error that tells the call. *)
Definition failing (calls : nat) : result nat * nat :=
  (Throw (match calls with
          | 0%nat => Error "first"
          | 1%nat => Error "second"
          | _ => Error "later"
          end), S calls).

End RetryExamples.

(** ** A scripted browser, to run the scraper on concrete pages *)

Module Sim.
Import JsString Number Data Async Puppeteer.

Record SimElement := {
  el_textContent : option jsstring;
  el_innerText : option jsstring;
  el_href : jsstring;
  el_dateTime : option jsstring
}.

(** A document answers a selector with the elements listed for it. *)
Record SimDocument := {
  doc_pathname : jsstring;
  doc_matches : list (jsstring * list SimElement)
}.

Definition empty_document : SimDocument :=
  {| doc_pathname := []; doc_matches := [] |}.

Fixpoint lookup {A} (key : jsstring) (table : list (jsstring * A)) : option A :=
  match table with
  | [] => None
  | (k, v) :: rest => if JsString.eqb k key then Some v else lookup key rest
  end.

Definition sim_querySelectorAll (doc : SimDocument) (selector : jsstring)
  : list SimElement :=
  match lookup selector (doc_matches doc) with
  | Some els => els
  | None => []
  end.

Definition sim_querySelector (doc : SimDocument) (selector : jsstring)
  : option SimElement :=
  hd_error (sim_querySelectorAll doc selector).

(** The site, the address shown, the addresses whose navigation is rejected,
    the addresses on which [evaluate] is rejected, whether the browser has
    been closed, and the names of the calls that are rejected whenever they
    are made ([launch], [newPage], [waitForTimeout]).  Closing a browser that
    is closed returns and changes nothing. *)
Record SimWorld := {
  site : list (jsstring * SimDocument);
  location : jsstring;
  unreachable : list jsstring;
  unreadable : list jsstring;
  closed : bool;
  faults : list jsstring
}.

Definition current_document (w : SimWorld) : SimDocument :=
  match lookup (location w) (site w) with
  | Some doc => doc
  | None => empty_document
  end.

Definition mem (x : jsstring) (l : list jsstring) : bool :=
  existsb (JsString.eqb x) l.

Definition sim_goto (url : jsstring) (w : SimWorld) : result unit * SimWorld :=
  if mem url (unreachable w)
  then (Throw (Error "net::ERR_CONNECTION_FAILED"), w)
  else (Ok tt, {| site := site w; location := url;
                  unreachable := unreachable w; unreadable := unreadable w;
                  closed := closed w; faults := faults w |}).

Definition sim_evaluate (w : SimWorld) : result SimDocument * SimWorld :=
  if mem (location w) (unreadable w)
  then (Throw (Error "Execution context was destroyed"), w)
  else (Ok (current_document w), w).

Definition sim_waitForSelector (selector : jsstring) (w : SimWorld)
  : result unit * SimWorld :=
  if found (sim_querySelector (current_document w) selector)
  then (Ok tt, w)
  else (Throw (Error "TimeoutError"), w).

Definition sim_close (w : SimWorld) : result unit * SimWorld :=
  (Ok tt,
   {| site := site w; location := location w;
      unreachable := unreachable w; unreadable := unreadable w;
      closed := true; faults := faults w |}).

Definition ok (w : SimWorld) : result unit * SimWorld := (Ok tt, w).

(** A call that is rejected when its name is among the faults. *)
Definition unless_faulty (name : string) (w : SimWorld)
  : result unit * SimWorld :=
  if mem (str name) (faults w)
  then (Throw (Error ("rejected: " ++ name)), w)
  else (Ok tt, w).

Definition driver : Driver := {|
  World := SimWorld;
  Browser := unit;
  Page := unit;
  Document := SimDocument;
  Element := SimElement;
  launch := fun _ => unless_faulty "launch";
  newPage := fun _ => unless_faulty "newPage";
  browser_close := fun _ => sim_close;
  setViewport := fun _ _ => ok;
  setUserAgent := fun _ _ => ok;
  setExtraHTTPHeaders := fun _ _ => ok;
  setRequestInterception := fun _ _ => ok;
  on_request := fun _ _ w => w;
  goto := fun _ url _ => sim_goto url;
  page_waitForSelector := fun _ selector _ => sim_waitForSelector selector;
  waitForNavigation := fun _ => ok;
  waitForTimeout := fun _ _ => unless_faulty "waitForTimeout";
  page_query := fun _ selector w =>
    (Ok (found (sim_querySelector (current_document w) selector)), w);
  click := fun _ _ => ok;
  page_type := fun _ _ _ _ => ok;
  evaluate := fun _ => sim_evaluate;
  Math_random := fun w => (of_ratio 1 2, w);
  querySelector := sim_querySelector;
  querySelectorAll := sim_querySelectorAll;
  textContent := el_textContent;
  innerText := el_innerText;
  href := el_href;
  dateTime := el_dateTime;
  pathname := doc_pathname
|}.

(** An element with a text, and an anchor. *)
Definition text_element (text : string) : SimElement :=
  {| el_textContent := Some (str text); el_innerText := Some (str text);
     el_href := []; el_dateTime := None |}.

Definition anchor (url : string) : SimElement :=
  {| el_textContent := None; el_innerText := None;
     el_href := str url; el_dateTime := None |}.

Definition world_of (pages : list (jsstring * SimDocument))
  (bad : list jsstring) : SimWorld :=
  {| site := pages; location := []; unreachable := bad; unreadable := [];
     closed := false; faults := [] |}.

Definition with_faults (names : list jsstring) (w : SimWorld) : SimWorld :=
  {| site := site w; location := location w; unreachable := unreachable w;
     unreadable := unreadable w; closed := closed w; faults := names |}.

End Sim.

(** ** What the orchestrator is compared with *)

Module ScrapeSpec.
Import JsString Number Normalizers Data Async Retry Puppeteer.
Local Open Scope async_scope.


(** The precedence of the post-type classifier on its three signals. *)
Definition classify (hasVideo hasNext reelSignal : bool) : PostType :=
  if hasVideo then video
  else if hasNext then carousel
  else if reelSignal then reel
  else image.

(** [l1] is [l2] with some elements left out, the others in their order. *)
Inductive subseq {A : Type} : list A -> list A -> Prop :=
  | subseq_nil : subseq [] []
  | subseq_skip x l1 l2 : subseq l1 l2 -> subseq l1 (x :: l2)
  | subseq_keep x l1 l2 : subseq l1 l2 -> subseq (x :: l1) (x :: l2).

Definition is_ok {A} (r : result A) : bool :=
  match r with Ok _ => true | Throw _ => false end.

(** The links whose processing succeeded, in the order of the links. *)
Definition kept_links (links : list jsstring) (outcomes : list bool)
  : list jsstring :=
  map fst (filter snd (combine links outcomes)).

(** A post whose hashtags are those of its caption. *)
Definition tagged_from_caption (post : PostData) : Prop :=
  hashtags post = extractHashtags (caption post).

(** A post of the first variant: tagged from its caption, of type
    ["image"]. *)
Definition basic_post_ok (post : PostData) : Prop :=
  tagged_from_caption post /\ type post = image.

(** A property of every value a method can return, from any state. *)
Definition ensures {W A} (m : M W A) (Q : A -> Prop) : Prop :=
  forall st a st' t, m st = (Ok a, st', t) -> Q a.

Section Driven.
Variable D : Driver.

(** [doc] is a document that an [evaluate] of the driver has returned. *)
Definition evaluated (doc : Document D) : Prop :=
  exists p w w', evaluate D p w = (Ok doc, w').

(** Whether the processing of each link succeeds, when the links are
    processed one after the other from the state [st] (src/index.ts). *)
Fixpoint index_outcomes (links : list jsstring) (st : Index.State D)
  : list bool :=
  match links with
  | [] => []
  | link :: rest =>
      let '(r, st1, _) := Index.process_post D link st in
      is_ok r :: index_outcomes rest st1
  end.

(** The closure that navigates to a profile. *)
Definition navigate (username : jsstring)
  : Index.State D -> result unit * Index.State D :=
  Index.on_page D
    (fun p => goto D p (Index.profile_url username) (Some 30000)).



(** The same for the variant with login (part_000:443-451). *)
Fixpoint auth_outcomes (links : list jsstring) (st : Auth.State D)
  : list bool :=
  match links with
  | [] => []
  | link :: rest =>
      let '(r, st1, _) := Auth.scrapePost D link st in
      is_ok r
      :: auth_outcomes rest
           (if is_ok r then (fst st1, snd (Math_random D (snd st1))) else st1)
  end.

(** A method that leaves the fields of the scraper as they are. *)
Definition unchanged {A} (m : Async.M (Auth.State D) A) : Prop :=
  forall st r st' t, m st = (r, st', t) -> fst st' = fst st.

(** A method that sets [isLoggedIn] when it returns and leaves the fields as
    they are when it throws. *)
Definition logs_in {A} (m : Async.M (Auth.State D) A) : Prop :=
  forall st r st' t,
    m st = (r, st', t) ->
    match r with
    | Ok _ =>
        fst st' = {| Auth.browser := Auth.browser (fst st);
                     Auth.page := Auth.page (fst st);
                     Auth.isLoggedIn := true |}
    | Throw _ => fst st' = fst st
    end.

End Driven.

Arguments unchanged {D A} m.
Arguments logs_in {D A} m.

End ScrapeSpec.

(** ** A small site: one profile with three posts, the second unreachable *)

Module Demo.
Import JsString Number Data Async Puppeteer Sim.

Definition post1 : string := "https://www.instagram.com/p/one/".
Definition post2 : string := "https://www.instagram.com/p/two/".
Definition post3 : string := "https://www.instagram.com/p/three/".

Definition time_element (iso : string) : SimElement :=
  {| el_textContent := None; el_innerText := None; el_href := [];
     el_dateTime := Some (str iso) |}.

(** The profile page, with the texts of its counts as parameters. *)
Definition profile_document (followers following : string) : SimDocument := {|
  doc_pathname := str "/demo/";
  doc_matches :=
    [(str "header section", [text_element ""]);
     (str "header section span", [text_element "Traveler"]);
     (str "h1", [text_element "Traveler"]);
     (str "header section ul li:nth-child(2) span", [text_element followers]);
     (str "header section ul li:nth-child(3) span", [text_element following]);
     (str "li:nth-child(2) span span", [text_element followers]);
     (str "li:nth-child(3) span span", [text_element following]);
     (str "article a", [anchor post1; anchor post2; anchor post3])]
|}.

Definition video_post : SimDocument := {|
  doc_pathname := str "/p/one/";
  doc_matches :=
    [(str "video", [text_element ""]);
     (str "article h1", [text_element "Sunset #beach #travel"]);
     (str "h1", [text_element "Sunset #beach #travel"]);
     (str "article section span", [text_element "1.2k"]);
     (str "section span span", [text_element "1.2k"]);
     (str "time", [time_element "2024-05-01T10:00:00.000Z"])]
|}.

Definition image_post : SimDocument := {|
  doc_pathname := str "/p/three/";
  doc_matches :=
    [(str "article h1", [text_element "At home"]);
     (str "h1", [text_element "At home"]);
     (str "article section span", [text_element "340"]);
     (str "section span span", [text_element "340"])]
|}.

Definition world (followers following : string) : SimWorld :=
  world_of
    [(str "https://www.instagram.com/demo/",
      profile_document followers following);
     (str post1, video_post);
     (str post2, image_post);
     (str post3, image_post)]
    [str post2].





(** The scraper of src/index.ts once initialized, on this site. *)
Definition index_state (followers following : string)
  : Index.State Sim.driver :=
  (Index.Build_Scraper Sim.driver (Some tt) (Some tt),
   world followers following).

(** The scraper of the variant with login, initialized without credentials. *)
Definition auth_state (followers following : string)
  : Auth.State Sim.driver :=
  (Auth.Build_Scraper Sim.driver (Some tt) (Some tt) false,
   world followers following).

Definition video_post_data (likes : number) : PostData := {|
  type := video;
  likes := likes;
  hashtags := [str "#beach"; str "#travel"];
  caption := str "Sunset #beach #travel";
  postUrl := str post1;
  timestamp := str "2024-05-01T10:00:00.000Z"
|}.

Definition image_post_data (likes : number) : PostData := {|
  type := image;
  likes := likes;
  hashtags := [];
  caption := str "At home";
  postUrl := str post3;
  timestamp := []
|}.

(** The scraper of src/index.ts after it has opened the first post. *)
Definition index_on_post1 : Index.State Sim.driver :=
  (fst (index_state "10.5k" "200"),
   snd (sim_goto (str post1) (world "10.5k" "200"))).

(** What the two variants return for the profile [demo] whose page shows
    [10.5k] followers and [200] following. *)
Definition index_profile : UserProfile := {|
  username := str "demo";
  bio := str "Traveler";
  posts := [video_post_data (of_Z 1200); image_post_data (of_Z 340)];
  followersCount := of_Z 10;
  followingCount := of_Z 200
|}.

Definition auth_profile : UserProfile := {|
  username := str "demo";
  bio := str "Traveler";
  posts := [video_post_data (of_Z 1200); image_post_data (of_Z 340)];
  followersCount := of_Z 10500;
  followingCount := of_Z 200
|}.

End Demo.

Module JsStringFacts.
Import JsString.

Lemma span_app cls s : (fst (span cls s) ++ snd (span cls s))%list = s.
Proof.
  induction s as [|c s IH]; simpl; [reflexivity|].
  destruct (cls c); [|reflexivity].
  destruct (span cls s) as [a b]; simpl in *. now rewrite IH.
Qed.

Lemma span_fst_all cls s : forallb cls (fst (span cls s)) = true.
Proof.
  induction s as [|c s IH]; simpl; [reflexivity|].
  destruct (cls c) eqn:E; [|reflexivity].
  destruct (span cls s) as [a b]; simpl in *. now rewrite E, IH.
Qed.

Lemma span_snd_head cls s c r : snd (span cls s) = c :: r -> cls c = false.
Proof.
  induction s as [|x s IH]; simpl; [discriminate|].
  destruct (cls x) eqn:E.
  - destruct (span cls s) as [a b]; simpl in *. exact IH.
  - intros H; injection H as -> _. exact E.
Qed.

(** A run of [cls] followed by a text that does not start with [cls] is
    split exactly there. *)
Lemma span_run cls a b :
  forallb cls a = true ->
  match b with [] => True | c :: _ => cls c = false end ->
  span cls (a ++ b) = (a, b).
Proof.
  intros Ha Hb. induction a as [|x a IH]; simpl in *.
  - destruct b as [|c b]; [reflexivity|]. simpl. now rewrite Hb.
  - apply andb_prop in Ha as [Hx Ha]. rewrite Hx, (IH Ha). reflexivity.
Qed.

Lemma span_length cls s :
  (List.length (snd (span cls s)) <= List.length s)%nat.
Proof.
  induction s as [|c s IH]; simpl; [lia|].
  destruct (cls c); [|simpl; lia].
  destruct (span cls s) as [a b]; simpl in *. lia.
Qed.

End JsStringFacts.

(** ** The hashtag extractor *)

Module HashtagFacts.
Import JsString Number Normalizers TextShapes JsStringFacts.

Lemma exec_hashtag_inv s m rest :
  exec_hashtag s = Some (m, rest) ->
  exists w, s = (35%N :: w ++ rest)%list /\ m = 35%N :: w /\ w <> []
            /\ forallb hashtag_char w = true.
Proof.
  unfold exec_hashtag. destruct s as [|c s]; [discriminate|].
  destruct (N.eq_dec c 35) as [->|Hc].
  - pose proof (span_app hashtag_char s) as Happ.
    pose proof (span_fst_all hashtag_char s) as Hall.
    destruct (span hashtag_char s) as [w r]; simpl in *.
    destruct w as [|x w]; [discriminate|].
    intros H; injection H as <- <-.
    exists (x :: w). rewrite Happ. repeat split; [discriminate | exact Hall].
  - destruct c as [|p]; [discriminate|].
    do 6 (destruct p as [p|p|]; try discriminate); exfalso; apply Hc; reflexivity.
Qed.

Lemma exec_hashtag_word c s : hashtag_char c = true -> exec_hashtag (c :: s) = None.
Proof.
  intros H. unfold exec_hashtag.
  destruct (N.eq_dec c 35) as [->|Hc]; [discriminate H|].
  destruct c as [|p]; [reflexivity|].
  do 6 (destruct p as [p|p|]; try reflexivity); exfalso; apply Hc; reflexivity.
Qed.

(** No match starts inside a run of word characters. *)
Lemma scan_skip w rest : forallb hashtag_char w = true -> scan (w ++ rest) = scan rest.
Proof.
  induction w as [|c w IH]; intros H; [reflexivity|].
  apply andb_prop in H as [Hc Hw].
  change (scan ((c :: w) ++ rest))
    with (match exec_hashtag (c :: w ++ rest) with
          | Some (m, _) => m :: scan (w ++ rest)
          | None => scan (w ++ rest)
          end).
  rewrite (exec_hashtag_word _ _ Hc). exact (IH Hw).
Qed.

(** The loop of [match] never runs out of rounds on a text shorter than its
    budget, and finds what the index-by-index scan finds. *)
Lemma match_all_scan fuel : forall s,
  (List.length s < fuel)%nat -> match_all fuel s = scan s.
Proof.
  induction fuel as [|fuel IH]; intros s Hlen; [lia|].
  destruct s as [|c s]; [reflexivity|].
  change (match_all (S fuel) (c :: s))
    with (match exec_hashtag (c :: s) with
          | Some (m, rest) => m :: match_all fuel rest
          | None => match_all fuel s
          end).
  change (scan (c :: s))
    with (match exec_hashtag (c :: s) with
          | Some (m, _) => m :: scan s
          | None => scan s
          end).
  destruct (exec_hashtag (c :: s)) as [[m rest]|] eqn:E.
  - destruct (exec_hashtag_inv _ _ _ E) as (w & Hs & -> & Hne & Hall).
    injection Hs as -> ->.
    rewrite (scan_skip _ _ Hall). f_equal. apply IH.
    simpl in Hlen. rewrite length_app in Hlen. lia.
  - apply IH. simpl in Hlen. lia.
Qed.

Lemma token_at_head s :
  token_at s 0 = match exec_hashtag s with Some (m, _) => Some m | None => None end.
Proof.
  unfold token_at, exec_hashtag, take_while. simpl.
  destruct s as [|c s]; [reflexivity|].
  destruct c as [|p]; [reflexivity|].
  do 6 (destruct p as [p|p|]; try reflexivity).
  destruct (span hashtag_char s) as [w r]; simpl. now destruct w.
Qed.

Lemma scan_all_tokens s : scan s = all_tokens s.
Proof.
  unfold all_tokens. induction s as [|c s IH]; [reflexivity|].
  change (scan (c :: s))
    with (match exec_hashtag (c :: s) with
          | Some (m, _) => m :: scan s
          | None => scan s
          end).
  cbn [List.length]. rewrite <- cons_seq, <- seq_shift. cbn [flat_map].
  rewrite token_at_head, flat_map_concat_map, map_map, <- flat_map_concat_map.
  change (fun x => match token_at (c :: s) (S x) with
                   | Some t => [t] | None => [] end)
    with (fun x => match token_at s x with Some t => [t] | None => [] end).
  rewrite <- IH. now destruct (exec_hashtag (c :: s)) as [[m r]|].
Qed.

Lemma extractHashtags_scan text : extractHashtags text = scan text.
Proof.
  unfold extractHashtags, match_hashtags.
  rewrite match_all_scan by lia. now destruct (scan text).
Qed.

Lemma token_at_shape s i t :
  token_at s i = Some t ->
  exists w, t = 35%N :: w /\ w <> [] /\ forallb hashtag_char w = true.
Proof.
  unfold token_at, take_while.
  destruct (skipn i s) as [|c after]; [discriminate|].
  destruct c as [|p]; [discriminate|].
  do 6 (destruct p as [p|p|]; try discriminate).
  pose proof (span_fst_all hashtag_char after) as Hall.
  destruct (span hashtag_char after) as [w r]; simpl in *.
  destruct w as [|x w]; [discriminate|].
  intros H; injection H as <-. exists (x :: w).
  repeat split; [discriminate | exact Hall].
Qed.

(** C7.  For every text, [extractHashtags] returns exactly the "#token"
    occurrences of the text ([#] followed by one or more characters of
    [[\w\u0590-\u05ff]], taken as long as possible), by increasing index and with
    repetitions kept; every element it returns has that shape; a text with no
    occurrence gives the empty array; ["#a #b #a"] gives
    [["#a"; "#b"; "#a"]].  The function is total: it has no error result. *)
Theorem extractHashtags_all_tokens :
  (forall text, extractHashtags text = all_tokens text)
  /\ (forall text, no_token text = true -> extractHashtags text = [])
  /\ (forall text t, In t (extractHashtags text) ->
        exists w, t = 35%N :: w /\ w <> [] /\ forallb hashtag_char w = true)
  /\ extractHashtags (str "#a #b #a") = [str "#a"; str "#b"; str "#a"].
Proof.
  assert (Hall : forall text, extractHashtags text = all_tokens text).
  { intros text. now rewrite extractHashtags_scan, scan_all_tokens. }
  split; [exact Hall|]. split; [|split].
  - intros text Hno. rewrite Hall. unfold all_tokens, no_token in *.
    induction (seq 0 (List.length text)) as [|i l IH]; [reflexivity|].
    cbn [forallb flat_map] in *. apply andb_prop in Hno as [Hi Hl].
    destruct (token_at text i); [discriminate|]. exact (IH Hl).
  - intros text t Hin. rewrite Hall in Hin. unfold all_tokens in Hin.
    apply in_flat_map in Hin as (i & _ & Hi).
    destruct (token_at text i) as [t'|] eqn:E; [|destruct Hi].
    destruct Hi as [<-|[]]. exact (token_at_shape _ _ _ E).
  - vm_compute. reflexivity.
Qed.

Lemma extractHashtags_all_tokens_witness :
  extractHashtags (str "sunset at the beach, no tags # here") = [].
Proof.
  apply (proj1 (proj2 extractHashtags_all_tokens)). vm_compute. reflexivity.
Defined.

End HashtagFacts.

(** ** The count parsers *)

Module CountFacts.
Import JsString Number Normalizers TextShapes JsStringFacts.

Ltac bools :=
  repeat match goal with
  | H : (_ || _)%bool = true |- _ => apply orb_true_iff in H; destruct H
  | H : (_ && _)%bool = true |- _ => apply andb_true_iff in H; destruct H
  | H : (_ || _)%bool = false |- _ => apply orb_false_iff in H; destruct H
  | H : negb _ = true |- _ => apply negb_true_iff in H
  | H : N.leb _ _ = true |- _ => apply N.leb_le in H
  | H : N.leb _ _ = false |- _ => apply N.leb_gt in H
  | H : N.eqb _ _ = true |- _ => apply N.eqb_eq in H
  | H : N.eqb _ _ = false |- _ => apply N.eqb_neq in H
  | H : Nat.eqb _ _ = false |- _ => apply Nat.eqb_neq in H
  | H : Nat.eqb _ _ = true |- _ => apply Nat.eqb_eq in H
  end.

(** What a digit or a point is not. *)
Lemma digit_or_dot_range c :
  is_digit_or_dot c = true -> (c = 46 \/ 48 <= c <= 57)%N.
Proof. unfold is_digit_or_dot, is_digit, in_range. intros H. bools; lia. Qed.

Lemma digit_range c : is_digit c = true -> (48 <= c <= 57)%N.
Proof. unfold is_digit, in_range. intros H. bools; lia. Qed.

Lemma not_space c : (46 <= c <= 57)%N -> is_space c = false.
Proof.
  intros H. destruct (is_space c) eqn:E; [|reflexivity].
  unfold is_space, in_range in E. bools; lia.
Qed.

Lemma not_unit c : (46 <= c <= 57)%N -> is_unit c = false.
Proof.
  intros H. destruct (is_unit c) eqn:E; [|reflexivity].
  unfold is_unit in E. bools; lia.
Qed.

Lemma read_sign_plain c s :
  c <> 45%N -> c <> 43%N -> read_sign (c :: s) = (false, c :: s).
Proof.
  intros H45 H43. unfold read_sign.
  destruct c as [|p]; [reflexivity|].
  do 6 (destruct p as [p|p|]; try reflexivity);
    exfalso; (apply H45; reflexivity) || (apply H43; reflexivity).
Qed.

Lemma no_infinity c s : c <> 73%N -> starts_with (str "Infinity") (c :: s) = false.
Proof.
  intros H. change (str "Infinity") with (73 :: str "nfinity")%N.
  cbn [starts_with]. apply N.eqb_neq in H. rewrite N.eqb_sym in H.
  now rewrite H.
Qed.

Lemma decimal_text_chars d :
  decimal_ok d = true -> forallb is_digit_or_dot (decimal_text d) = true.
Proof.
  unfold decimal_ok, decimal_text. intros H.
  assert (Hd : forall l, forallb is_digit l = true ->
                         forallb is_digit_or_dot l = true).
  { induction l as [|c l IH]; [reflexivity|]. cbn [forallb]. intros Hl.
    apply andb_prop in Hl as [Hc Hl]. unfold is_digit_or_dot at 1.
    now rewrite Hc, (IH Hl). }
  destruct (frac_digits d) as [fp|]; bools.
  - rewrite forallb_app. cbn [forallb]. now rewrite !Hd.
  - now apply Hd.
Qed.

Lemma decimal_text_nonempty d : decimal_ok d = true -> decimal_text d <> [].
Proof.
  unfold decimal_ok, decimal_text. intros H.
  destruct (frac_digits d) as [fp|]; bools.
  - now destruct (int_digits d).
  - destruct (int_digits d); [contradiction H0; reflexivity | discriminate].
Qed.

(** [parseFloat] reads a decimal literal as its value. *)
Lemma parseFloat_decimal d :
  decimal_ok d = true -> parseFloat (decimal_text d) = decimal_value d.
Proof.
  intros Hok.
  pose proof (decimal_text_chars d Hok) as Hchars.
  pose proof (decimal_text_nonempty d Hok) as Hne.
  unfold parseFloat.
  destruct (decimal_text d) as [|c s] eqn:Etext; [contradiction Hne; reflexivity|].
  cbn [forallb] in Hchars. apply andb_prop in Hchars as [Hc _].
  apply digit_or_dot_range in Hc.
  assert (Hsp : span is_space (c :: s) = ([], c :: s)).
  { cbn [span]. rewrite not_space by lia. reflexivity. }
  rewrite Hsp, read_sign_plain by lia. rewrite no_infinity by lia.
  unfold jsstring, code_unit in *. rewrite <- Etext. clear Hsp Hc Etext Hne c s.
  unfold decimal_ok, decimal_text, decimal_value in *.
  destruct d as [ip [fp|]]; cbn [int_digits frac_digits] in *; bools.
  - rewrite (span_run is_digit ip (46%N :: fp)) by (assumption || reflexivity).
    rewrite <- (app_nil_r fp) at 1.
    rewrite (span_run is_digit fp []) by (assumption || exact I).
    cbn [read_exponent]. rewrite Z.sub_0_l.
    destruct ip as [|a ip]; [destruct fp as [|b fp]|]; try reflexivity.
    cbn [List.length Nat.add] in *. contradiction H1; reflexivity.
  - rewrite <- (app_nil_r ip) at 1.
    rewrite (span_run is_digit ip []) by (assumption || exact I).
    cbn [read_exponent List.length Z.of_nat]. rewrite Z.sub_0_r, app_nil_r.
    destruct ip as [|a ip]; [|reflexivity].
    contradiction H0; reflexivity.
Qed.

Lemma match_count_decimal d u :
  decimal_ok d = true ->
  match_count (decimal_text d ++ suffix_text u) =
  Some (decimal_text d,
        match u with
        | no_unit => None
        | unit_k => Some 107%N
        | unit_m => Some 109%N
        | unit_b => Some 98%N
        end).
Proof.
  intros Hok. unfold match_count.
  rewrite (span_run is_digit_or_dot (decimal_text d) (suffix_text u)).
  - pose proof (decimal_text_nonempty d Hok) as Hne.
    destruct (decimal_text d); [contradiction Hne; reflexivity|].
    now destruct u.
  - now apply decimal_text_chars.
  - now destruct u.
Qed.

Lemma forallb_rev {A} (f : A -> bool) l : forallb f (rev l) = forallb f l.
Proof.
  induction l as [|a l IH]; [reflexivity|].
  cbn [rev forallb]. rewrite forallb_app, IH. cbn [forallb].
  now rewrite andb_true_r, andb_comm.
Qed.

(** A text that [match_count] accepts has the shape [[0-9.]+[kmb]?]. *)
Lemma match_count_shaped s g : match_count s = Some g -> count_shaped s = true.
Proof.
  unfold match_count, count_shaped.
  pose proof (span_app is_digit_or_dot s) as Happ.
  pose proof (span_fst_all is_digit_or_dot s) as Hall.
  destruct (span is_digit_or_dot s) as [num rest]; cbn [fst snd] in *.
  destruct num as [|c num]; [discriminate|].
  destruct rest as [|u [|v rest]]; try discriminate.
  - rewrite app_nil_r in Happ. subst s. intros _.
    destruct (rev (c :: num)) as [|x before] eqn:Erev.
    + apply (f_equal (@List.length _)) in Erev.
      rewrite length_rev in Erev. discriminate.
    + assert (Hx : is_digit_or_dot x = true).
      { rewrite <- forallb_rev, Erev in Hall. cbn [forallb] in Hall.
        now apply andb_prop in Hall as [Hx _]. }
      apply digit_or_dot_range in Hx. rewrite not_unit by lia. exact Hall.
  - destruct (is_unit u) eqn:Eu; [|discriminate]. intros _. subst s.
    rewrite rev_app_distr. change (rev [u]) with [u].
    change ([u] ++ rev (c :: num))%list with (u :: rev (c :: num)).
    cbv beta iota. rewrite Eu, forallb_rev, Hall, length_rev. reflexivity.
Qed.

(** C1, amended.  [parseCount] lower-cases its argument and removes the
    commas.  When what is left is a decimal literal (digits, at most one
    point, at least one digit) followed by an optional [k], [m] or [b], the
    result is the Number value of the literal, multiplied as a binary64 by
    1e3, 1e6 or 1e9 when the suffix is there, and not rounded to an integer.
    When what is left does not have the shape [[0-9.]+[kmb]?] the result is
    0.  There is no error result.  The six examples of the specification hold
    for [parseCount] and for [parseLikeCount]. *)
Theorem parseCount_scaled_value :
  (forall count d u,
      decimal_ok d = true ->
      count_normalized count = (decimal_text d ++ suffix_text u)%list ->
      parseCount count = scaled (decimal_value d) u)
  /\ (forall count,
        count_shaped (count_normalized count) = false ->
        parseCount count = zero)
  /\ map parseCount
       [str "0"; str "1,234"; str "12.3k"; str "2m"; str ""; str "abc"]
     = [zero; of_Z 1234; of_Z 12300; of_Z 2000000; zero; zero]
  /\ map parseLikeCount
       [str "0"; str "1,234"; str "12.3k"; str "2m"; str ""; str "abc"]
     = [zero; of_Z 1234; of_Z 12300; of_Z 2000000; zero; zero].
Proof.
  split; [|split; [|split]].
  - intros count d u Hok Hnorm. unfold parseCount.
    change (remove_class (fun c => N.eqb c 44) (toLowerCase count))
      with (count_normalized count).
    rewrite Hnorm, (match_count_decimal d u Hok), (parseFloat_decimal d Hok).
    now destruct u.
  - intros count Hshape. unfold parseCount.
    change (remove_class (fun c => N.eqb c 44) (toLowerCase count))
      with (count_normalized count).
    destruct (match_count (count_normalized count)) as [g|] eqn:E;
      [|reflexivity].
    apply match_count_shaped in E. congruence.
  - vm_compute. reflexivity.
  - vm_compute. reflexivity.
Qed.

Lemma parseCount_scaled_value_witness :
  parseCount (str "1,200.5K")
  = scaled (decimal_value {| int_digits := str "1200";
                             frac_digits := Some (str "5") |}) unit_k
  /\ parseCount (str " 5") = zero.
Proof.
  split.
  - apply (proj1 parseCount_scaled_value); vm_compute; reflexivity.
  - apply (proj1 (proj2 parseCount_scaled_value)); vm_compute; reflexivity.
Defined.

(** C1 as stated fails: the result is not rounded to an integer.
    [parseCount("1.5")] is 1.5 and [parseLikeCount("1.2345k")] is 1234.5. *)
Lemma parseCount_not_rounded :
  parseCount (str "1.5") = of_ratio 3 2
  /\ is_integer (parseCount (str "1.5")) = false
  /\ parseLikeCount (str "1.2345k") = of_ratio 2469 2
  /\ is_integer (parseLikeCount (str "1.2345k")) = false.
Proof. vm_compute. repeat split; reflexivity. Qed.

End CountFacts.

(** ** The retry runner *)

Module RetryFacts.
Import Async Retry RetrySpec.

Section Runner.
Variables W T : Type.
Variable operation : W -> result T * W.
Variable retries : Z.

Lemma retry_loop_step n i delay e w :
  retry_loop operation retries (S n) i delay e w =
  match operation w with
  | (Ok v, w1) => (Ok v, w1, [Attempt])
  | (Throw error, w1) =>
      if i <? retries - 1 then
        let '(r, w2, t) :=
          retry_loop operation retries n (i + 1) (delay * 2) error w1 in
        (r, w2, Attempt :: Timeout delay :: t)
      else
        let '(r, w2, t) :=
          retry_loop operation retries n (i + 1) delay error w1 in
        (r, w2, Attempt :: t)
  end.
Proof.
  cbn [retry_loop]. unfold bind, try_catch, emit, call, ret.
  destruct (operation w) as [[v|error] w1]; [reflexivity|].
  destruct (i <? retries - 1).
  - destruct (retry_loop operation retries n (i + 1) (delay * 2) error w1)
      as [[r w2] t]. reflexivity.
  - destruct (retry_loop operation retries n (i + 1) delay error w1)
      as [[r w2] t]. reflexivity.
Qed.

Lemma loop_first_success k : forall n i delay e w v,
  (k < n)%nat -> retries = i + Z.of_nat n ->
  (forall j, (j < k)%nat -> fails operation w j) ->
  outcome operation w k = Ok v ->
  retry_loop operation retries n i delay e w =
  (Ok v, state_before operation w (S k), attempts_trace delay (S k)).
Proof.
  induction k as [|k IH]; intros n i delay e w v Hk Hn Hfail Hok;
    (destruct n as [|n]; [lia|]); rewrite retry_loop_step.
  - unfold outcome in Hok. cbn [state_before] in *.
    destruct (operation w) as [[v'|error] w1]; cbn [fst snd] in *;
      [|discriminate].
    now injection Hok as ->.
  - destruct (Hfail 0%nat ltac:(lia)) as [error Herr].
    unfold outcome in Herr. cbn [state_before] in *.
    destruct (operation w) as [[v'|error'] w1] eqn:Eop; cbn [fst snd] in *;
      [discriminate|].
    replace (i <? retries - 1) with true by (symmetry; apply Z.ltb_lt; lia).
    rewrite (IH n (i + 1) (delay * 2) error' w1 v); [reflexivity|lia|lia| |].
    + intros j Hj. specialize (Hfail (S j) ltac:(lia)).
      unfold fails, outcome in *. cbn [state_before] in Hfail.
      now rewrite Eop in Hfail.
    + unfold outcome in *. cbn [state_before] in Hok.
      now rewrite Eop in Hok.
Qed.

Lemma loop_all_fail n : forall i delay e w,
  retries = i + Z.of_nat n ->
  (forall j, (j < n)%nat -> fails operation w j) ->
  retry_loop operation retries n i delay e w =
  (Throw (match n with O => e | S m => error_at operation w m end),
   state_before operation w n, attempts_trace delay n).
Proof.
  induction n as [|n IH]; intros i delay e w Hn Hfail; [reflexivity|].
  rewrite retry_loop_step.
  destruct (Hfail 0%nat ltac:(lia)) as [error Herr].
  unfold outcome in Herr. cbn [state_before] in *.
  destruct (operation w) as [[v'|error'] w1] eqn:Eop; cbn [fst snd] in *;
    [discriminate|].
  assert (Hshift : forall j, (j < n)%nat -> fails operation w1 j).
  { intros j Hj. specialize (Hfail (S j) ltac:(lia)).
    unfold fails, outcome in *. cbn [state_before] in Hfail.
    now rewrite Eop in Hfail. }
  destruct n as [|m].
  - replace (i <? retries - 1) with false by (symmetry; apply Z.ltb_ge; lia).
    cbn [retry_loop]. unfold throw, error_at, outcome. cbn [state_before].
    now rewrite Eop.
  - replace (i <? retries - 1) with true by (symmetry; apply Z.ltb_lt; lia).
    rewrite (IH (i + 1) (delay * 2) error' w1) by (lia || assumption).
    unfold error_at, outcome. cbn [state_before]. now rewrite Eop.
Qed.

Lemma loop_attempts n : forall i delay e w r w' t,
  retry_loop operation retries n i delay e w = (r, w', t) ->
  (attempts t <= n)%nat /\ w' = state_before operation w (attempts t).
Proof.
  induction n as [|n IH]; intros i delay e w r w' t.
  - cbn [retry_loop]. unfold throw. intros H; injection H as <- <- <-.
    split; [apply Nat.le_refl | reflexivity].
  - rewrite retry_loop_step.
    destruct (operation w) as [[v|error] w1] eqn:Eop.
    + intros H; injection H as <- <- <-. cbn.
      rewrite Eop. split; [lia | reflexivity].
    + destruct (i <? retries - 1).
      * destruct (retry_loop operation retries n (i + 1) (delay * 2) error w1)
          as [[r2 w2] t2] eqn:E.
        intros H; injection H as <- <- <-.
        destruct (IH _ _ _ _ _ _ _ E) as [Hle Hw].
        change (attempts (Attempt :: Timeout delay :: t2)) with (S (attempts t2)).
        cbn [state_before]. rewrite Eop. split; [lia | exact Hw].
      * destruct (retry_loop operation retries n (i + 1) delay error w1)
          as [[r2 w2] t2] eqn:E.
        intros H; injection H as <- <- <-.
        destruct (IH _ _ _ _ _ _ _ E) as [Hle Hw].
        change (attempts (Attempt :: t2)) with (S (attempts t2)).
        cbn [state_before]. rewrite Eop. split; [lia | exact Hw].
Qed.

End Runner.

Lemma attempts_of_trace n : forall delay, attempts (attempts_trace delay n) = n.
Proof.
  induction n as [|n IH]; intros delay; [reflexivity|].
  destruct n as [|m]; [reflexivity|].
  change (attempts (attempts_trace delay (S (S m))))
    with (S (attempts (attempts_trace (delay * 2) (S m)))).
  now rewrite IH.
Qed.

Lemma backoff_cons delay n :
  backoff delay (S n) = delay :: backoff (delay * 2) n.
Proof.
  unfold backoff. rewrite <- cons_seq. cbn [map].
  rewrite <- seq_shift, map_map.
  f_equal; [change (2 ^ Z.of_nat 0) with 1; lia|].
  apply map_ext. intros j. rewrite Nat2Z.inj_succ, Z.pow_succ_r by lia. lia.
Qed.

Lemma timeouts_of_trace n : forall delay,
  timeouts (attempts_trace delay n) = backoff delay (n - 1).
Proof.
  induction n as [|n IH]; intros delay; [reflexivity|].
  destruct n as [|m]; [reflexivity|].
  change (timeouts (attempts_trace delay (S (S m))))
    with (delay :: timeouts (attempts_trace (delay * 2) (S m))).
  rewrite IH. replace (S (S m) - 1)%nat with (S (S m - 1)) by lia.
  now rewrite backoff_cons.
Qed.

Lemma last_of_trace n : forall delay,
  last (attempts_trace delay (S n)) Attempt = Attempt.
Proof.
  induction n as [|n IH]; intros delay; [reflexivity|].
  change (attempts_trace delay (S (S n)))
    with (Attempt :: Timeout delay :: attempts_trace (delay * 2) (S n)).
  specialize (IH (delay * 2)).
  destruct (attempts_trace (delay * 2) (S n)) eqn:E; [discriminate E|].
  exact IH.
Qed.

Lemma backoff_nth delay n j a :
  nth_error (backoff delay n) j = Some a -> a = delay * 2 ^ Z.of_nat j.
Proof.
  unfold backoff. rewrite nth_error_map, nth_error_seq.
  destruct (Nat.ltb j n); [|discriminate]. cbn. now intros H; injection H as <-.
Qed.

(** C2.  [retryOperation(operation, retries, delay)] calls the operation at
    most [retries] times, one call after the other; when the first call that
    succeeds is the call number [k < retries] (from 0) it returns that call's
    value after exactly [k + 1] calls, so an operation that fails twice and
    then succeeds is called 3 times; when [retries >= 1] and all [retries]
    calls fail it throws the error of the last call and no earlier one. *)
Theorem retryOperation_first_success_or_last_error
  (W T : Type) (operation : W -> result T * W) (retries delay : Z)
  (w : W) (r : result T) (w' : W) (t : list event) :
  retryOperation operation retries delay w = (r, w', t) ->
  (attempts t <= Z.to_nat retries)%nat
  /\ w' = state_before operation w (attempts t)
  /\ (forall k v,
        (k < Z.to_nat retries)%nat ->
        (forall j, (j < k)%nat -> fails operation w j) ->
        outcome operation w k = Ok v ->
        r = Ok v /\ attempts t = S k)
  /\ (1 <= retries ->
      (forall j, (j < Z.to_nat retries)%nat -> fails operation w j) ->
      r = Throw (error_at operation w (Z.to_nat retries - 1))
      /\ attempts t = Z.to_nat retries).
Proof.
  unfold retryOperation. intros Hrun.
  destruct (loop_attempts W T operation retries _ _ _ _ _ _ _ _ Hrun)
    as [Hle Hw].
  split; [exact Hle|]. split; [exact Hw|]. split.
  - intros k v Hk Hfail Hok.
    rewrite (loop_first_success _ _ operation retries k (Z.to_nat retries)
               0 delay Undefined w v) in Hrun by (assumption || lia).
    injection Hrun as <- <- <-. split; [reflexivity|].
    exact (attempts_of_trace (S k) delay).
  - intros Hpos Hfail.
    rewrite (loop_all_fail _ _ operation retries (Z.to_nat retries)
               0 delay Undefined w) in Hrun by (assumption || lia).
    injection Hrun as <- <- <-.
    destruct (Z.to_nat retries) as [|m] eqn:E; [lia|].
    replace (S m - 1)%nat with m by lia.
    split; [reflexivity | exact (attempts_of_trace (S m) delay)].
Qed.

Lemma retryOperation_first_success_or_last_error_witness :
  fst (fst (retryOperation (RetryExamples.flaky 2) 3 1000 0%nat)) = Ok 2%nat
  /\ attempts (snd (retryOperation (RetryExamples.flaky 2) 3 1000 0%nat)) = 3%nat
  /\ fst (fst (retryOperation RetryExamples.failing 3 1000 0%nat))
     = Throw (Error "later").
Proof.
  destruct (retryOperation (RetryExamples.flaky 2) 3 1000 0%nat)
    as [[r w'] t] eqn:E.
  destruct (retryOperation RetryExamples.failing 3 1000 0%nat)
    as [[r2 w2] t2] eqn:E2.
  destruct (retryOperation_first_success_or_last_error _ _ _ _ _ _ _ _ _ E)
    as (_ & _ & Hfirst & _).
  destruct (retryOperation_first_success_or_last_error _ _ _ _ _ _ _ _ _ E2)
    as (_ & _ & _ & Hlast).
  cbn [fst snd].
  destruct (Hfirst 2%nat 2%nat) as [Hr Ha].
  - vm_compute. lia.
  - intros j Hj. exists (Error "unreachable").
    destruct j as [|[|j]]; [reflexivity | reflexivity | lia].
  - reflexivity.
  - destruct Hlast as [Hr2 _].
    + lia.
    + intros j Hj. change (Z.to_nat 3) with 3%nat in Hj.
      destruct j as [|[|[|j]]]; [eexists; reflexivity .. | lia].
    + repeat split; assumption.
Defined.

(** C8.  When every one of the [retries] calls fails, the run is: a call, a
    wait of [delay], a call, a wait of [2 * delay], and so on, ending with
    the last call.  There are [retries - 1] waits, each the double of the
    one before, so with [delay >= 0] they never decrease; nothing is awaited
    after the last failure. *)
Theorem retryOperation_backoff
  (W T : Type) (operation : W -> result T * W) (retries delay : Z)
  (w : W) (r : result T) (w' : W) (t : list event) :
  retryOperation operation retries delay w = (r, w', t) ->
  (forall j, (j < Z.to_nat retries)%nat -> fails operation w j) ->
  t = attempts_trace delay (Z.to_nat retries)
  /\ timeouts t = backoff delay (Z.to_nat retries - 1)
  /\ (forall j a b,
        nth_error (timeouts t) j = Some a ->
        nth_error (timeouts t) (S j) = Some b ->
        b = 2 * a /\ (0 <= delay -> a <= b))
  /\ (1 <= retries -> last t Attempt = Attempt).
Proof.
  unfold retryOperation. intros Hrun Hfail.
  assert (Ht : t = attempts_trace delay (Z.to_nat retries)).
  { destruct (Z.le_gt_cases retries 0) as [Hle|Hgt].
    - replace (Z.to_nat retries) with 0%nat in * by lia.
      cbn [retry_loop] in Hrun. unfold throw in Hrun.
      now injection Hrun as <- <- <-.
    - rewrite (loop_all_fail _ _ operation retries (Z.to_nat retries)
                 0 delay Undefined w) in Hrun by (assumption || lia).
      now injection Hrun as <- <- <-. }
  clear Hrun. subst t.
  split; [reflexivity|]. split; [apply timeouts_of_trace|]. split.
  - intros j a b. rewrite timeouts_of_trace. intros Ha Hb.
    apply backoff_nth in Ha, Hb. subst a b.
    rewrite Nat2Z.inj_succ, Z.pow_succ_r by lia.
    split; [lia|]. intros Hd.
    assert (0 <= delay * 2 ^ Z.of_nat j)
      by (apply Z.mul_nonneg_nonneg; [exact Hd | apply Z.pow_nonneg; lia]).
    lia.
  - intros Hpos. destruct (Z.to_nat retries) as [|m] eqn:E; [lia|].
    apply last_of_trace.
Qed.

Lemma retryOperation_backoff_witness :
  snd (retryOperation RetryExamples.failing 4 1000 0%nat)
  = [Attempt; Timeout 1000; Attempt; Timeout 2000; Attempt; Timeout 4000;
     Attempt].
Proof.
  destruct (retryOperation RetryExamples.failing 4 1000 0%nat)
    as [[r w'] t] eqn:E.
  destruct (retryOperation_backoff _ _ _ _ _ _ _ _ _ E) as (Ht & _).
  - intros j Hj. eexists. reflexivity.
  - cbn [snd]. exact Ht.
Defined.

(** C10.  With [retries <= 0] the operation is not called and the call
    throws [undefined], the value [lastError] has before any assignment. *)
Theorem retryOperation_no_attempt
  (W T : Type) (operation : W -> result T * W) (retries delay : Z) (w : W) :
  retries <= 0 ->
  retryOperation operation retries delay w = (Throw Undefined, w, []).
Proof.
  intros H. unfold retryOperation.
  replace (Z.to_nat retries) with 0%nat by lia. reflexivity.
Qed.

Lemma retryOperation_no_attempt_witness :
  retryOperation (RetryExamples.flaky 0) 0 1000 7%nat
  = (Throw Undefined, 7%nat, []).
Proof. apply retryOperation_no_attempt. lia. Defined.

End RetryFacts.

(** ** Reasoning about awaited effects *)

Module AsyncFacts.
Import Async Retry ScrapeSpec.
Local Open Scope async_scope.

Section Rules.
Variable W : Type.

Lemma ensures_ret {A} (a : A) (Q : A -> Prop) : Q a -> ensures (@ret W A a) Q.
Proof. intros H st a' st' t E. unfold ret in E. now injection E as <- _ _. Qed.

Lemma ensures_throw {A} e (Q : A -> Prop) : ensures (@throw W A e) Q.
Proof. intros st a st' t E. discriminate E. Qed.

Lemma ensures_bind {A B} (m : M W A) (f : A -> M W B) (P : A -> Prop)
  (Q : B -> Prop) :
  ensures m P -> (forall a, P a -> ensures (f a) Q) -> ensures (bind m f) Q.
Proof.
  intros Hm Hf st b st' t E. unfold bind in E.
  destruct (m st) as [[[a|e] st1] t1] eqn:Em; [|discriminate E].
  destruct (f a st1) as [[r2 st2] t2] eqn:Ef.
  injection E as -> _ _.
  exact (Hf a (Hm _ _ _ _ Em) _ _ _ _ Ef).
Qed.

Lemma ensures_try_catch {A} (m : M W A) (h : exn -> M W A) (Q : A -> Prop) :
  ensures m Q -> (forall e, ensures (h e) Q) -> ensures (try_catch m h) Q.
Proof.
  intros Hm Hh st a st' t E. unfold try_catch in E.
  destruct (m st) as [[[a1|e] st1] t1] eqn:Em.
  - injection E as <- _ _. exact (Hm _ _ _ _ Em).
  - destruct (h e st1) as [[r2 st2] t2] eqn:Eh.
    injection E as -> _ _. exact (Hh e _ _ _ _ Eh).
Qed.

Lemma ensures_weaken {A} (m : M W A) (P Q : A -> Prop) :
  ensures m P -> (forall a, P a -> Q a) -> ensures m Q.
Proof. intros Hm HPQ st a st' t E. exact (HPQ _ (Hm _ _ _ _ E)). Qed.

Lemma ensures_trivial {A} (m : M W A) : ensures m (fun _ => True).
Proof. intros st a st' t _. exact I. Qed.

Lemma ensures_self {A} (m : M W A) :
  ensures m (fun a => exists st st' t, m st = (Ok a, st', t)).
Proof. intros st a st' t E. now exists st, st', t. Qed.

Lemma ensures_call {A} (f : W -> result A * W) (Q : A -> Prop) :
  (forall w a w', f w = (Ok a, w') -> Q a) -> ensures (call f) Q.
Proof.
  intros Hf st a st' t E. unfold call in E.
  destruct (f st) as [r w'] eqn:Ef. injection E as -> _ _.
  exact (Hf _ _ _ Ef).
Qed.

(** A value returned by the retry runner is a value the operation returned. *)
Lemma retry_loop_ok {T} (operation : W -> result T * W) retries n :
  forall i delay e w v w' t,
  retry_loop operation retries n i delay e w = (Ok v, w', t) ->
  exists w1, operation w1 = (Ok v, w').
Proof.
  induction n as [|n IH]; intros i delay e w v w' t; [discriminate|].
  rewrite RetryFacts.retry_loop_step.
  destruct (operation w) as [[v1|error] w1] eqn:Eop.
  - intros H; injection H as <- <- _. now exists w.
  - destruct (i <? retries - 1).
    + destruct (retry_loop operation retries n (i + 1) (delay * 2) error w1)
        as [[r2 w2] t2] eqn:E.
      intros H; injection H as -> -> _. exact (IH _ _ _ _ _ _ _ E).
    + destruct (retry_loop operation retries n (i + 1) delay error w1)
        as [[r2 w2] t2] eqn:E.
      intros H; injection H as -> -> _. exact (IH _ _ _ _ _ _ _ E).
Qed.

Lemma ensures_retry {T} (operation : W -> result T * W) (Q : T -> Prop) :
  (forall w v w', operation w = (Ok v, w') -> Q v) ->
  ensures (retryOperation_default operation) Q.
Proof.
  intros Hop st v st' t E.
  destruct (retry_loop_ok _ _ _ _ _ _ _ _ _ _ E) as [w1 H1].
  exact (Hop _ _ _ H1).
Qed.





End Rules.

End AsyncFacts.

(** ** src/index.ts: the orchestrator *)

Module IndexFacts.
Import JsString Number Normalizers Data Async Retry Puppeteer ScrapeSpec.
Import AsyncFacts Index.
Local Open Scope async_scope.

Section Driven.
Variable D : Driver.

Lemma evaluate_with_ok {A} (fn : Document D -> A) st v st' :
  evaluate_with D fn st = (Ok v, st') ->
  exists doc, evaluated D doc /\ v = fn doc.
Proof.
  unfold evaluate_with, on_page, drive.
  destruct (page (fst st)) as [p|]; [|discriminate].
  destruct (evaluate D p (snd st)) as [[doc|e] w] eqn:E; [|discriminate].
  intros H; injection H as <- _. exists doc. split; [|reflexivity].
  now exists p, (snd st), w.
Qed.

Lemma ensures_evaluate {A} (fn : Document D -> A) :
  ensures (retryOperation_default (evaluate_with D fn))
          (fun v => exists doc, evaluated D doc /\ v = fn doc).
Proof. apply ensures_retry. intros w v w'. apply evaluate_with_ok. Qed.

Lemma process_post_url link :
  ensures (process_post D link) (fun post => postUrl post = link).
Proof.
  unfold process_post.
  eapply ensures_bind; [apply ensures_trivial | intros _ _].
  eapply ensures_bind; [apply ensures_trivial | intros postData _].
  eapply ensures_bind; [apply ensures_trivial | intros ty _].
  eapply ensures_bind; [apply ensures_trivial | intros _ _].
  eapply ensures_bind; [apply ensures_trivial | intros _ _].
  now apply ensures_ret.
Qed.

Lemma process_posts_cons link rest posts st :
  process_posts D (link :: rest) posts st =
  match process_post D link st with
  | (Ok post, st1, t1) =>
      let '(r, st2, t2) := process_posts D rest (posts ++ [post]) st1 in
      (r, st2, t1 ++ t2)
  | (Throw error, st1, t1) =>
      let '(r, st2, t2) := process_posts D rest posts st1 in
      (r, st2,
       t1 ++ ConsoleError (ErrorProcessingPost link) (Some error) :: t2)
  end.
Proof.
  cbn [process_posts]. unfold bind at 1. unfold try_catch.
  unfold bind at 1.
  destruct (process_post D link st) as [[[post|error] st1] t1].
  - unfold ret at 1. rewrite !app_nil_r.
    now destruct (process_posts D rest (posts ++ [post]) st1) as [[r st2] t2].
  - unfold bind, emit, ret. cbn [app].
    destruct (process_posts D rest posts st1) as [[r st2] t2].
    now rewrite <- app_assoc.
Qed.

(** The loop over the post links never throws; it collects the posts of the
    links whose processing returned, in the order of the links, and reports
    the error of every other link on the console. *)
Lemma process_posts_run links : forall posts st,
  exists collected st' t,
    process_posts D links posts st = (Ok (posts ++ collected)%list, st', t)
    /\ map postUrl collected = kept_links links (index_outcomes D links st)
    /\ (forall i link,
          nth_error links i = Some link ->
          nth_error (index_outcomes D links st) i = Some false ->
          exists e, In (ConsoleError (ErrorProcessingPost link) (Some e)) t).
Proof.
  induction links as [|link rest IH]; intros posts st.
  - exists [], st, []. rewrite app_nil_r. repeat split.
    intros i link Hi. destruct i; discriminate Hi.
  - rewrite process_posts_cons. cbn [index_outcomes].
    destruct (process_post D link st) as [[[post|error] st1] t1] eqn:E.
    + destruct (IH (posts ++ [post])%list st1)
        as (collected & st' & t & Hrun & Hurls & Hlog).
      rewrite Hrun. exists (post :: collected), st', (t1 ++ t)%list.
      split; [now rewrite <- app_assoc|]. split.
      * cbn [map is_ok]. unfold kept_links in *. cbn [combine filter snd map fst].
        now rewrite Hurls, (process_post_url link _ _ _ _ E).
      * intros i l Hi Ho. destruct i as [|i]; [discriminate Ho|].
        destruct (Hlog i l Hi Ho) as [e He]. exists e.
        apply in_or_app. now right.
    + destruct (IH posts st1) as (collected & st' & t & Hrun & Hurls & Hlog).
      rewrite Hrun.
      exists collected, st',
        (t1 ++ ConsoleError (ErrorProcessingPost link) (Some error) :: t)%list.
      split; [reflexivity|]. split.
      * unfold kept_links in *. cbn [is_ok combine filter snd]. exact Hurls.
      * intros i l Hi Ho. destruct i as [|i].
        -- injection Hi as <-. exists error. apply in_or_app. right. now left.
        -- destruct (Hlog i l Hi Ho) as [e He]. exists e.
           apply in_or_app. right. now right.
Qed.

(** What a profile returned by [scrapeUserProfile] is made of. *)
Lemma scrapeUserProfile_parts username :
  ensures (scrapeUserProfile D username)
    (fun profile =>
       Data.username profile = username
       /\ (exists doc, evaluated D doc /\ bio profile = read_bio D doc)
       /\ (exists doc, evaluated D doc
                       /\ followersCount profile = read_count D "2" doc)
       /\ (exists doc, evaluated D doc
                       /\ followingCount profile = read_count D "3" doc)
       /\ (exists doc st1 st2 t2,
             evaluated D doc
             /\ process_posts D (read_post_links D doc) [] st1
                = (Ok (posts profile), st2, t2))).
Proof.
  unfold scrapeUserProfile.
  eapply ensures_bind; [apply ensures_trivial | intros self _].
  destruct (page self) as [p|]; [|apply ensures_throw].
  apply ensures_try_catch.
  2:{ intros e. eapply ensures_bind; [apply ensures_trivial | intros _ _].
      apply ensures_throw. }
  eapply ensures_bind; [apply ensures_trivial | intros _ _].
  eapply ensures_bind; [apply ensures_trivial | intros _ _].
  eapply ensures_bind; [apply ensures_trivial | intros loginRequired _].
  eapply ensures_bind; [apply ensures_trivial | intros _ _].
  eapply ensures_bind; [apply ensures_trivial | intros _ _].
  eapply ensures_bind; [apply ensures_evaluate | intros bio Hbio].
  eapply ensures_bind; [apply ensures_trivial | intros _ _].
  eapply ensures_bind; [apply ensures_evaluate | intros followers Hfollowers].
  eapply ensures_bind; [apply ensures_evaluate | intros following Hfollowing].
  eapply ensures_bind; [apply ensures_trivial | intros _ _].
  eapply ensures_bind; [apply ensures_evaluate | intros postLinks Hlinks].
  eapply ensures_bind; [apply ensures_trivial | intros _ _].
  eapply ensures_bind; [apply ensures_self | intros collected Hposts].
  apply ensures_ret.
  cbn [Data.username Data.bio Data.posts followersCount followingCount].
  split; [reflexivity|]. split; [exact Hbio|]. split; [exact Hfollowers|].
  split; [exact Hfollowing|].
  destruct Hlinks as (doc & Hdoc & ->).
  destruct Hposts as (st1 & st2 & t2 & Hrun).
  now exists doc, st1, st2, t2.
Qed.

End Driven.
End IndexFacts.

(** ** part_000, lines 259-554: the orchestrator of the variant with login *)

Module AuthFacts.
Import JsString Number Normalizers Data Async Puppeteer ScrapeSpec.
Import AsyncFacts Auth.
Local Open Scope async_scope.

Section Driven.
Variable D : Driver.

Lemma ensures_drive {A} (f : World D -> result A * World D) (Q : A -> Prop) :
  (forall w a w', f w = (Ok a, w') -> Q a) -> ensures (drive D f) Q.
Proof.
  intros Hf st a st' t E. unfold drive in E.
  destruct (f (snd st)) as [r w'] eqn:Ef. injection E as -> _ _.
  exact (Hf _ _ _ Ef).
Qed.

Lemma ensures_page_evaluate p :
  ensures (drive D (evaluate D p)) (evaluated D).
Proof. apply ensures_drive. intros w doc w' E. now exists p, w, w'. Qed.

Lemma scrapePost_url url :
  ensures (scrapePost D url) (fun post => postUrl post = url).
Proof.
  unfold scrapePost.
  eapply ensures_bind; [apply ensures_trivial | intros self _].
  destruct (page self) as [p|]; [|apply ensures_throw].
  eapply ensures_bind; [apply ensures_trivial | intros _ _].
  eapply ensures_bind; [apply ensures_trivial | intros _ _].
  eapply ensures_bind; [apply ensures_trivial | intros doc _].
  eapply ensures_bind; [apply ensures_trivial | intros ty _].
  now apply ensures_ret.
Qed.

Lemma getPostLinks_links :
  ensures (getPostLinks D)
    (fun links => exists doc,
         evaluated D doc
         /\ links = map (href D) (querySelectorAll D doc (str "article a"))).
Proof.
  unfold getPostLinks.
  eapply ensures_bind; [apply ensures_trivial | intros self _].
  destruct (page self) as [p|]; [|apply ensures_throw].
  eapply ensures_bind; [apply ensures_page_evaluate | intros doc Hdoc].
  apply ensures_ret. now exists doc.
Qed.

Lemma scrape_posts_cons link rest posts st :
  scrape_posts D (link :: rest) posts st =
  match scrapePost D link st with
  | (Ok post, st1, t1) =>
      let (x, w) := Math_random D (snd st1) in
      let '(r, st2, t2) :=
        scrape_posts D rest (posts ++ [post]) (fst st1, w) in
      (r, st2,
       t1 ++ Delay (add (mul x (of_Z 1000)) (of_Z 500)) :: t2)
  | (Throw error, st1, t1) =>
      let '(r, st2, t2) := scrape_posts D rest posts st1 in
      (r, st2, t1 ++ ConsoleError (ErrorScrapingPost link) (Some error) :: t2)
  end.
Proof.
  cbn [scrape_posts]. unfold bind at 1. unfold try_catch.
  unfold bind at 1.
  destruct (scrapePost D link st) as [[[post|error] st1] t1].
  - unfold bind, random, delay, emit, ret.
    destruct (Math_random D (snd st1)) as [x w]. cbn [app].
    destruct (scrape_posts D rest (posts ++ [post]) (fst st1, w))
      as [[r st2] t2].
    now rewrite <- app_assoc.
  - unfold bind, emit, ret. cbn [app].
    destruct (scrape_posts D rest posts st1) as [[r st2] t2].
    now rewrite <- app_assoc.
Qed.

Lemma scrape_posts_run links : forall posts st,
  exists collected st' t,
    scrape_posts D links posts st = (Ok (posts ++ collected)%list, st', t)
    /\ map postUrl collected = kept_links links (auth_outcomes D links st)
    /\ (forall i link,
          nth_error links i = Some link ->
          nth_error (auth_outcomes D links st) i = Some false ->
          exists e, In (ConsoleError (ErrorScrapingPost link) (Some e)) t).
Proof.
  induction links as [|link rest IH]; intros posts st.
  - exists [], st, []. rewrite app_nil_r. repeat split.
    intros i link Hi. destruct i; discriminate Hi.
  - rewrite scrape_posts_cons. cbn [auth_outcomes].
    destruct (scrapePost D link st) as [[[post|error] st1] t1] eqn:E.
    + cbn [is_ok]. destruct (Math_random D (snd st1)) as [x w]. cbn [snd].
      destruct (IH (posts ++ [post])%list (fst st1, w))
        as (collected & st' & t & Hrun & Hurls & Hlog).
      rewrite Hrun.
      exists (post :: collected), st',
        (t1 ++ Delay (add (mul x (of_Z 1000)) (of_Z 500)) :: t)%list.
      split; [now rewrite <- app_assoc|]. split.
      * cbn [map]. unfold kept_links in *. cbn [combine filter snd map fst].
        now rewrite Hurls, (scrapePost_url link _ _ _ _ E).
      * intros i l Hi Ho. destruct i as [|i]; [discriminate Ho|].
        destruct (Hlog i l Hi Ho) as [e He]. exists e.
        apply in_or_app. right. now right.
    + cbn [is_ok].
      destruct (IH posts st1) as (collected & st' & t & Hrun & Hurls & Hlog).
      rewrite Hrun.
      exists collected, st',
        (t1 ++ ConsoleError (ErrorScrapingPost link) (Some error) :: t)%list.
      split; [reflexivity|]. split.
      * unfold kept_links in *. cbn [combine filter snd]. exact Hurls.
      * intros i l Hi Ho. destruct i as [|i].
        -- injection Hi as <-. exists error. apply in_or_app. right. now left.
        -- destruct (Hlog i l Hi Ho) as [e He]. exists e.
           apply in_or_app. right. now right.
Qed.

Lemma auth_scrapeUserProfile_parts username :
  ensures (scrapeUserProfile D username)
    (fun profile =>
       Data.username profile = username
       /\ (exists doc,
             evaluated D doc
             /\ bio profile = raw_bio (read_profile D doc)
             /\ followersCount profile
                = parseCount (raw_followers (read_profile D doc))
             /\ followingCount profile
                = parseCount (raw_following (read_profile D doc)))
       /\ (exists doc st1 st2 t2,
             evaluated D doc
             /\ scrape_posts D
                  (firstn 4 (map (href D)
                               (querySelectorAll D doc (str "article a"))))
                  [] st1
                = (Ok (posts profile), st2, t2))).
Proof.
  unfold scrapeUserProfile.
  eapply ensures_bind; [apply ensures_trivial | intros self _].
  destruct (page self) as [p|]; [|apply ensures_throw].
  apply ensures_try_catch.
  2:{ intros e. eapply ensures_bind; [apply ensures_trivial | intros _ _].
      apply ensures_throw. }
  eapply ensures_bind; [apply ensures_trivial | intros r _].
  eapply ensures_bind; [apply ensures_trivial | intros _ _].
  eapply ensures_bind; [apply ensures_trivial | intros _ _].
  eapply ensures_bind; [apply ensures_trivial | intros _ _].
  eapply ensures_bind; [apply ensures_trivial | intros _ _].
  eapply ensures_bind; [apply ensures_page_evaluate | intros doc Hdoc].
  eapply ensures_bind; [apply getPostLinks_links | intros postLinks Hlinks].
  eapply ensures_bind; [apply ensures_self | intros collected Hposts].
  apply ensures_ret.
  cbn [Data.username Data.bio Data.posts followersCount followingCount].
  split; [reflexivity|]. split; [now exists doc|].
  destruct Hlinks as (doc2 & Hdoc2 & ->).
  destruct Hposts as (st1 & st2 & t2 & Hrun).
  now exists doc2, st1, st2, t2.
Qed.

End Driven.
End AuthFacts.

(** ** Lists of kept links *)

Module KeptFacts.
Import JsString ScrapeSpec.

Lemma subseq_nil_l {A} (l : list A) : subseq [] l.
Proof. induction l; constructor; assumption. Qed.

Lemma subseq_length {A} (l1 l2 : list A) :
  subseq l1 l2 -> (List.length l1 <= List.length l2)%nat.
Proof. induction 1; simpl; lia. Qed.

Lemma kept_links_subseq links : forall outcomes,
  subseq (kept_links links outcomes) links.
Proof.
  unfold kept_links.
  induction links as [|link rest IH]; intros outcomes.
  - constructor.
  - destruct outcomes as [|o os]; [apply subseq_nil_l|].
    cbn [combine filter snd]. destruct o; cbn [map fst].
    + apply subseq_keep, IH.
    + apply subseq_skip, IH.
Qed.



End KeptFacts.

(** ** Signs of the numbers the count parser returns *)

Module SignFacts.
Import JsString Number Normalizers TextShapes JsStringFacts CountFacts.

Lemma round_aux_sign m e l :
  is_negative (binary_round_aux prec emax false m e l) = false.
Proof.
  unfold binary_round_aux.
  destruct (shr_fexp prec emax m e l) as [mrs e1].
  destruct (shr_fexp prec emax _ e1 loc_Exact) as [mrs2 e2].
  destruct (shr_m mrs2); try reflexivity.
  now destruct (e2 <=? emax - prec).
Qed.

Lemma round_sign m e : is_negative (binary_round prec emax false m e) = false.
Proof.
  unfold binary_round.
  destruct (shl_align m e _) as [mz ez]. apply round_aux_sign.
Qed.

Lemma of_decimal_sign m k : is_negative (of_decimal m k) = false.
Proof.
  unfold of_decimal. destruct m as [|p|p]; try reflexivity.
  destruct (0 <=? k) eqn:Ek.
  - apply Z.leb_le in Ek. unfold of_Z, binary_normalize.
    assert (0 < 10 ^ k) by (apply Z.pow_pos_nonneg; lia).
    destruct (Z.pos p * 10 ^ k) eqn:E; try reflexivity; [apply round_sign | lia].
  - unfold of_ratio, SFdiv.
    destruct (SFdiv_core_binary prec emax (Z.pos p) 0 _ 0) as [[mz ez] lz].
    apply round_aux_sign.
Qed.

Lemma mul_sign v m e :
  is_negative v = false ->
  is_negative (mul v (S754_finite false m e)) = false.
Proof.
  destruct v as [s|s| |s mv ev]; cbn; intros H; subst; try reflexivity.
  apply round_aux_sign.
Qed.

(** [parseFloat] of a text that starts with a digit or a point. *)
Lemma parseFloat_sign c s :
  is_digit_or_dot c = true -> is_negative (parseFloat (c :: s)) = false.
Proof.
  intros Hc. apply digit_or_dot_range in Hc. unfold parseFloat.
  assert (Hsp : span is_space (c :: s) = ([], c :: s)).
  { cbn [span]. rewrite not_space by lia. reflexivity. }
  rewrite Hsp, read_sign_plain by lia. rewrite no_infinity by lia.
  match goal with
  | |- context [let (_, _) := ?x in _] => destruct x as [ip rest]
  end.
  match goal with
  | |- context [let (_, _) := ?x in _] => destruct x as [fp rest']
  end.
  destruct ip, fp; try reflexivity; apply of_decimal_sign.
Qed.

(** [parseCount] never returns a number with the sign bit set. *)
Lemma parseCount_sign count : is_negative (parseCount count) = false.
Proof.
  unfold parseCount, match_count.
  pose proof (span_fst_all is_digit_or_dot
                (remove_class (fun c => N.eqb c 44) (toLowerCase count))) as Hall.
  destruct (span is_digit_or_dot _) as [num rest]. cbn [fst] in Hall.
  destruct num as [|c num]; [reflexivity|].
  cbn [forallb] in Hall. apply andb_prop in Hall as [Hc _].
  pose proof (parseFloat_sign c num Hc) as Hsign.
  destruct rest as [|u [|v rest]]; try reflexivity; [exact Hsign|].
  destruct (is_unit u); [|reflexivity].
  unfold multipliers.
  destruct (N.eqb u 107); [|destruct (N.eqb u 109)];
    now apply mul_sign.
Qed.

End SignFacts.

(** ** The scraper: classification, partial failure, counts, bounds, close *)

Module ScraperFacts.
Import JsString Number Normalizers Data Async Puppeteer ScrapeSpec.
Import AsyncFacts KeptFacts SignFacts.

(** C3.  On an initialized page whose [evaluate] returns a document,
    [determinePostType] answers by precedence: [video] when a [video]
    element exists; else [carousel] when the "Next" control exists; else
    [reel] on the reel signal (an element [[role="button"][tabindex="0"]] in
    src/index.ts, a path that contains [/reel/] in the variant with login);
    else [image]. *)
Theorem determinePostType_precedence (D : Driver) :
  (forall st p doc w',
      Index.page (fst st) = Some p ->
      evaluate D p (snd st) = (Ok doc, w') ->
      Index.determinePostType D st =
      (Ok (classify
             (found (querySelector D doc (str "video")))
             (found (querySelector D doc
                       (str ("button[aria-label=" ++ dq ++ "Next" ++ dq ++ "]"))))
             (found (querySelector D doc
                       (str ("[role=" ++ dq ++ "button" ++ dq ++ "][tabindex="
                             ++ dq ++ "0" ++ dq ++ "]"))))),
       (fst st, w'), []))
  /\ (forall st p doc w',
        Auth.page (fst st) = Some p ->
        evaluate D p (snd st) = (Ok doc, w') ->
        Auth.determinePostType D st =
        (Ok (classify
               (found (querySelector D doc (str "video")))
               (found (querySelector D doc
                         (str ("[aria-label=" ++ dq ++ "Next" ++ dq ++ "]"))))
               (includes (pathname D doc) (str "/reel/"))),
         (fst st, w'), []))
  /\ (forall hasNext reelSignal, classify true hasNext reelSignal = video)
  /\ (forall reelSignal, classify false true reelSignal = carousel)
  /\ classify false false true = reel
  /\ classify false false false = image.
Proof.
  split; [|split].
  - intros st p doc w' Hp He.
    unfold Index.determinePostType, Index.this, Index.drive, bind, call, ret.
    rewrite Hp, He. reflexivity.
  - intros st p doc w' Hp He.
    unfold Auth.determinePostType, Auth.this, Auth.drive, bind, ret.
    rewrite Hp, He. reflexivity.
  - repeat split; reflexivity.
Qed.

Lemma determinePostType_precedence_witness :
  Index.determinePostType Sim.driver Demo.index_on_post1
  = (Ok video, Demo.index_on_post1, []).
Proof.
  pose proof (proj1 (determinePostType_precedence Sim.driver)
                Demo.index_on_post1 tt Demo.video_post
                (snd Demo.index_on_post1)
                ltac:(vm_compute; reflexivity)
                ltac:(vm_compute; reflexivity)) as H.
  exact H.
Defined.

(** The posts of a returned profile, under both variants: the links are
    read from a document of the page and cut to four, and the posts are those
    of the links whose processing returned. *)
Lemma index_posts_kept (D : Driver) username st profile st' t :
  Index.scrapeUserProfile D username st = (Ok profile, st', t) ->
  exists doc st1,
    evaluated D doc
    /\ map postUrl (posts profile)
       = kept_links (Index.read_post_links D doc)
           (index_outcomes D (Index.read_post_links D doc) st1).
Proof.
  intros Hrun.
  destruct (IndexFacts.scrapeUserProfile_parts D username _ _ _ _ Hrun)
    as (_ & _ & _ & _ & doc & st1 & st2 & t2 & Hdoc & Hloop).
  destruct (IndexFacts.process_posts_run D (Index.read_post_links D doc) [] st1)
    as (collected & st3 & t3 & Hrun3 & Hurls & _).
  rewrite Hrun3 in Hloop. injection Hloop as Hposts _ _.
  exists doc, st1. split; [exact Hdoc|]. now rewrite <- Hposts.
Qed.

Lemma auth_posts_kept (D : Driver) username st profile st' t :
  Auth.scrapeUserProfile D username st = (Ok profile, st', t) ->
  exists doc st1,
    evaluated D doc
    /\ map postUrl (posts profile)
       = kept_links
           (firstn 4 (map (href D) (querySelectorAll D doc (str "article a"))))
           (auth_outcomes D
              (firstn 4 (map (href D)
                           (querySelectorAll D doc (str "article a")))) st1).
Proof.
  intros Hrun.
  destruct (AuthFacts.auth_scrapeUserProfile_parts D username _ _ _ _ Hrun)
    as (_ & _ & doc & st1 & st2 & t2 & Hdoc & Hloop).
  destruct (AuthFacts.scrape_posts_run D
              (firstn 4 (map (href D)
                           (querySelectorAll D doc (str "article a")))) [] st1)
    as (collected & st3 & t3 & Hrun3 & Hurls & _).
  rewrite Hrun3 in Hloop. injection Hloop as Hposts _ _.
  exists doc, st1. split; [exact Hdoc|]. now rewrite <- Hposts.
Qed.









(** C6.  A returned profile has at most four posts, and the addresses of its
    posts are, in the same order, among the first four links of the elements
    [article a] of a document of the page, taken in document order. *)
Theorem posts_bounded_in_link_order (D : Driver) :
  (forall username st profile st' t,
      Index.scrapeUserProfile D username st = (Ok profile, st', t) ->
      (List.length (posts profile) <= 4)%nat
      /\ exists doc,
          evaluated D doc
          /\ subseq (map postUrl (posts profile))
                (firstn 4 (map (href D)
                             (querySelectorAll D doc (str "article a")))))
  /\ (forall username st profile st' t,
        Auth.scrapeUserProfile D username st = (Ok profile, st', t) ->
        (List.length (posts profile) <= 4)%nat
        /\ exists doc,
            evaluated D doc
            /\ subseq (map postUrl (posts profile))
                  (firstn 4 (map (href D)
                               (querySelectorAll D doc (str "article a"))))).
Proof.
  assert (Hbound : forall (urls : list jsstring) all,
             subseq urls (firstn 4 all) -> (List.length urls <= 4)%nat).
  { intros urls all Hsub. apply subseq_length in Hsub.
    rewrite length_firstn in Hsub. lia. }
  split.
  - intros username st profile st' t Hrun.
    destruct (index_posts_kept D _ _ _ _ _ Hrun) as (doc & st1 & Hdoc & Hurls).
    assert (Hsub : subseq (map postUrl (posts profile))
                     (Index.read_post_links D doc))
      by (rewrite Hurls; apply kept_links_subseq).
    split.
    + rewrite <- (length_map postUrl). exact (Hbound _ _ Hsub).
    + now exists doc.
  - intros username st profile st' t Hrun.
    destruct (auth_posts_kept D _ _ _ _ _ Hrun) as (doc & st1 & Hdoc & Hurls).
    assert (Hsub : subseq (map postUrl (posts profile))
                     (firstn 4 (map (href D)
                                  (querySelectorAll D doc (str "article a")))))
      by (rewrite Hurls; apply kept_links_subseq).
    split.
    + rewrite <- (length_map postUrl). exact (Hbound _ _ Hsub).
    + now exists doc.
Qed.

Lemma posts_bounded_in_link_order_witness :
  (List.length (posts Demo.auth_profile) <= 4)%nat
  /\ exists doc,
      evaluated Sim.driver doc
      /\ subseq (map postUrl (posts Demo.auth_profile))
            (firstn 4 (map (href Sim.driver)
                         (querySelectorAll Sim.driver doc (str "article a")))).
Proof.
  eapply (proj2 (posts_bounded_in_link_order Sim.driver)
            (str "demo") (Demo.auth_state "10.5k" "200")).
  vm_compute. reflexivity.
Defined.

(** C5, amended.  In the variant with login the two counts of a returned
    profile are [parseCount] of the texts of the second and third list items
    of a document of the page (["0"] when the element or its text is
    missing).  They are never negative (a non-negative number, or [NaN]), and
    the text ["12.3k"] gives 12300. *)
Theorem counts_parsed_not_negative (D : Driver)
  username st profile st' t :
  Auth.scrapeUserProfile D username st = (Ok profile, st', t) ->
  exists doc,
    evaluated D doc
    /\ let followers :=
         or_default
           (opt_chain (querySelector D doc (str "li:nth-child(2) span span"))
                      (innerText D)) (str "0") in
       let following :=
         or_default
           (opt_chain (querySelector D doc (str "li:nth-child(3) span span"))
                      (innerText D)) (str "0") in
       followersCount profile = parseCount followers
       /\ followingCount profile = parseCount following
       /\ is_negative (followersCount profile) = false
       /\ is_negative (followingCount profile) = false
       /\ (followers = str "12.3k" -> followersCount profile = of_Z 12300)
       /\ (following = str "12.3k" -> followingCount profile = of_Z 12300).
Proof.
  intros Hrun.
  destruct (AuthFacts.auth_scrapeUserProfile_parts D username _ _ _ _ Hrun)
    as (_ & (doc & Hdoc & _ & Hfollowers & Hfollowing) & _).
  exists doc. split; [exact Hdoc|]. cbv zeta.
  unfold Auth.read_profile in Hfollowers, Hfollowing.
  cbn [Auth.raw_followers Auth.raw_following] in Hfollowers, Hfollowing.
  split; [exact Hfollowers|]. split; [exact Hfollowing|].
  split; [rewrite Hfollowers; apply parseCount_sign|].
  split; [rewrite Hfollowing; apply parseCount_sign|].
  split; intros E.
  - rewrite Hfollowers, E. vm_compute. reflexivity.
  - rewrite Hfollowing, E. vm_compute. reflexivity.
Qed.

Lemma counts_parsed_not_negative_witness :
  exists doc,
    evaluated Sim.driver doc
    /\ followersCount Demo.auth_profile
       = parseCount
           (or_default
              (opt_chain
                 (querySelector Sim.driver doc (str "li:nth-child(2) span span"))
                 (innerText Sim.driver)) (str "0"))
    /\ is_negative (followersCount Demo.auth_profile) = false.
Proof.
  destruct (counts_parsed_not_negative Sim.driver
              (str "demo") (Demo.auth_state "10.5k" "200") Demo.auth_profile
              (snd (fst (Auth.scrapeUserProfile Sim.driver (str "demo")
                           (Demo.auth_state "10.5k" "200"))))
              (snd (Auth.scrapeUserProfile Sim.driver (str "demo")
                      (Demo.auth_state "10.5k" "200")))
              ltac:(vm_compute; reflexivity))
    as (doc & Hdoc & Hf & _ & Hs & _).
  exists doc. repeat split; assumption.
Defined.

(** C5 as stated fails.  With a page that shows [1.5] the variant with login
    returns the count 1.5, which is not an integer; with a page that shows
    [12.3k] src/index.ts returns 12, and with [-5] it returns -5. *)
Lemma counts_not_normalized_integers :
  (exists profile st' t,
      Auth.scrapeUserProfile Sim.driver (str "demo")
        (Demo.auth_state "1.5" "200") = (Ok profile, st', t)
      /\ followersCount profile = of_ratio 3 2
      /\ is_integer (followersCount profile) = false)
  /\ (exists profile st' t,
        Index.scrapeUserProfile Sim.driver (str "demo")
          (Demo.index_state "12.3k" "-5") = (Ok profile, st', t)
        /\ followersCount profile = of_Z 12
        /\ followingCount profile = of_Z (-5)
        /\ is_negative (followingCount profile) = true).
Proof.
  split.
  - destruct (Auth.scrapeUserProfile Sim.driver (str "demo")
                (Demo.auth_state "1.5" "200")) as [[[profile|e] st'] t] eqn:E;
      [|vm_compute in E; discriminate E].
    exists profile, st', t. split; [reflexivity|].
    vm_compute in E. injection E as <- _ _. vm_compute. split; reflexivity.
  - destruct (Index.scrapeUserProfile Sim.driver (str "demo")
                (Demo.index_state "12.3k" "-5")) as [[[profile|e] st'] t] eqn:E;
      [|vm_compute in E; discriminate E].
    exists profile, st', t. split; [reflexivity|].
    vm_compute in E. injection E as <- _ _. vm_compute.
    repeat split; reflexivity.
Qed.




End ScraperFacts.

(** ** More on the retry runner *)

Module RetryTraceFacts.
Import Async Retry RetrySpec RetryFacts.

Lemma loop_starts_with_attempt {W T} (operation : W -> result T * W)
  retries n i delay e w :
  exists t', snd (retry_loop operation retries (S n) i delay e w) = Attempt :: t'.
Proof.
  rewrite retry_loop_step.
  destruct (operation w) as [[v|error] w1]; [now exists []|].
  destruct (i <? retries - 1).
  - destruct (retry_loop operation retries n (i + 1) (delay * 2) error w1)
      as [[r w2] t]. now eexists.
  - destruct (retry_loop operation retries n (i + 1) delay error w1)
      as [[r w2] t]. now eexists.
Qed.

Lemma loop_trace_shape {W T} (operation : W -> result T * W) retries n :
  forall i delay e w,
  retries = i + Z.of_nat n ->
  snd (retry_loop operation retries n i delay e w)
  = attempts_trace delay
      (attempts (snd (retry_loop operation retries n i delay e w))).
Proof.
  induction n as [|n IH]; intros i delay e w Hn; [reflexivity|].
  rewrite retry_loop_step.
  destruct (operation w) as [[v|error] w1]; [reflexivity|].
  destruct n as [|m].
  - replace (i <? retries - 1) with false by (symmetry; apply Z.ltb_ge; lia).
    reflexivity.
  - replace (i <? retries - 1) with true by (symmetry; apply Z.ltb_lt; lia).
    specialize (IH (i + 1) (delay * 2) error w1 ltac:(lia)).
    destruct (loop_starts_with_attempt operation retries m (i + 1)
                (delay * 2) error w1) as [t' Ht'].
    destruct (retry_loop operation retries (S m) (i + 1) (delay * 2) error w1)
      as [[r w2] t]. cbn [snd] in *. subst t.
    change (attempts (Attempt :: Timeout delay :: Attempt :: t'))
      with (S (S (attempts t'))).
    change (attempts (Attempt :: t')) with (S (attempts t')) in IH.
    change (attempts_trace delay (S (S (attempts t'))))
      with (Attempt :: Timeout delay
            :: attempts_trace (delay * 2) (S (attempts t'))).
    now rewrite <- IH.
Qed.

Lemma total_backoff delay n : total (backoff delay n) = delay * (2 ^ Z.of_nat n - 1).
Proof.
  revert delay. induction n as [|n IH]; intros delay.
  - cbn. lia.
  - rewrite backoff_cons. cbn [total fold_right].
    change (fold_right Z.add 0 (backoff (delay * 2) n))
      with (total (backoff (delay * 2) n)).
    rewrite IH, Nat2Z.inj_succ, Z.pow_succ_r by lia. lia.
Qed.

Lemma run_trace_shape
  (W T : Type) (operation : W -> result T * W) (retries delay : Z) (w : W) :
  snd (retryOperation operation retries delay w)
  = attempts_trace delay
      (attempts (snd (retryOperation operation retries delay w))).
Proof.
  unfold retryOperation.
  destruct (Z.le_gt_cases retries 0) as [Hle|Hgt].
  - replace (Z.to_nat retries) with 0%nat by lia. reflexivity.
  - apply loop_trace_shape. lia.
Qed.

(** X1.  Whatever the operation does, a run of [retryOperation] is: an
    attempt, then for each further attempt one wait followed by the attempt,
    the waits being [delay], [2 * delay], [4 * delay], ... .  It never waits
    twice in a row, never waits before the first attempt and never after the
    last one. *)
Theorem retryOperation_trace_shape
  (W T : Type) (operation : W -> result T * W) (retries delay : Z) (w : W) :
  let t := snd (retryOperation operation retries delay w) in
  t = attempts_trace delay (attempts t)
  /\ timeouts t = backoff delay (attempts t - 1).
Proof.
  cbv zeta. pose proof (run_trace_shape W T operation retries delay w) as H.
  split; [exact H|]. rewrite H at 1. apply timeouts_of_trace.
Qed.

(** X2.  With [delay >= 0] and [retries >= 1] a run waits at most
    [delay * (2 ^ (retries - 1) - 1)] milliseconds in all, whatever the
    operation does: at most 3000 with the defaults 3 and 1000. *)
Theorem retryOperation_total_wait
  (W T : Type) (operation : W -> result T * W) (retries delay : Z) (w : W) :
  0 <= delay -> 1 <= retries ->
  total (timeouts (snd (retryOperation operation retries delay w)))
  <= delay * (2 ^ (retries - 1) - 1).
Proof.
  intros Hd Hr.
  destruct (retryOperation operation retries delay w) as [[r w'] t] eqn:E.
  cbn [snd].
  pose proof (loop_attempts W T operation retries _ _ _ _ _ _ _ _ E)
    as [Hle _].
  pose proof (run_trace_shape W T operation retries delay w) as Hs.
  rewrite E in Hs. cbn [snd] in Hs.
  rewrite Hs, timeouts_of_trace, total_backoff.
  apply Z.mul_le_mono_nonneg_l; [exact Hd|].
  apply Z.sub_le_mono_r. apply Z.pow_le_mono_r; lia.
Qed.

Lemma retryOperation_total_wait_witness :
  total (timeouts (snd (retryOperation RetryExamples.failing 3 1000 0%nat)))
  <= 1000 * (2 ^ (3 - 1) - 1).
Proof. apply retryOperation_total_wait; lia. Defined.

End RetryTraceFacts.

(** ** More on the normalizers *)

Module NormalizerMoreFacts.
Import JsString Number Normalizers TextShapes JsStringFacts HashtagFacts.
Import CountFacts.

Lemma span_fst_stop cls a c b :
  cls c = false -> fst (span cls (a ++ c :: b)) = fst (span cls a).
Proof.
  intros Hc. induction a as [|x a IH]; cbn [app span].
  - now rewrite Hc.
  - destruct (cls x); [|reflexivity].
    destruct (span cls (a ++ c :: b)) as [u v].
    destruct (span cls a) as [u' v']. cbn [fst] in *. now rewrite IH.
Qed.

Lemma scan_cons c s :
  scan (c :: s)
  = match exec_hashtag (c :: s) with
    | Some (m, _) => m :: scan s
    | None => scan s
    end.
Proof. reflexivity. Qed.

Lemma scan_app_separator a c b :
  hashtag_char c = false -> c <> 35%N ->
  scan (a ++ c :: b) = (scan a ++ scan b)%list.
Proof.
  intros Hc Hhash. induction a as [|x a IH].
  - cbn [app]. rewrite scan_cons.
    replace (exec_hashtag (c :: b)) with (@None (jsstring * jsstring));
      [reflexivity|].
    unfold exec_hashtag. destruct c as [|p]; [reflexivity|].
    do 6 (destruct p as [p|p|]; try reflexivity).
    contradiction Hhash; reflexivity.
  - change ((x :: a) ++ c :: b)%list with (x :: (a ++ c :: b))%list.
    rewrite !scan_cons, IH.
    assert (E : match exec_hashtag (x :: a ++ c :: b) with
                | Some (m, _) => Some m | None => None end
                = match exec_hashtag (x :: a) with
                  | Some (m, _) => Some m | None => None end).
    { unfold exec_hashtag. destruct x as [|p]; [reflexivity|].
      do 6 (destruct p as [p|p|]; try reflexivity).
      pose proof (span_fst_stop hashtag_char a c b Hc) as Hf.
      destruct (span hashtag_char (a ++ c :: b)) as [w r].
      destruct (span hashtag_char a) as [w' r']. cbn [fst] in Hf. subst w'.
      now destruct w. }
    destruct (exec_hashtag (x :: a ++ c :: b)) as [[m r]|];
      destruct (exec_hashtag (x :: a)) as [[m' r']|];
      try discriminate E; [|reflexivity].
    injection E as ->. reflexivity.
Qed.

(** X3.  A code unit that is neither [#] nor a word character separates the
    text: the hashtags of [a ++ c :: b] are those of [a] followed by those of
    [b]. *)
Theorem extractHashtags_separator a c b :
  hashtag_char c = false -> c <> 35%N ->
  extractHashtags (a ++ c :: b)
  = (extractHashtags a ++ extractHashtags b)%list.
Proof.
  intros Hc Hhash. rewrite !extractHashtags_scan.
  now apply scan_app_separator.
Qed.

Lemma extractHashtags_separator_witness :
  extractHashtags (str "#sun #sea" ++ 44%N :: str "#sky")
  = (extractHashtags (str "#sun #sea") ++ extractHashtags (str "#sky"))%list.
Proof.
  apply extractHashtags_separator; [reflexivity | discriminate].
Defined.

(** X4.  There are at most as many hashtags as there are [#] in the text. *)
Theorem extractHashtags_at_most_hashes text :
  (List.length (extractHashtags text)
   <= List.length (filter (N.eqb 35) text))%nat.
Proof.
  rewrite extractHashtags_scan.
  induction text as [|c s IH]; [apply Nat.le_refl|].
  rewrite scan_cons. cbn [filter].
  destruct (exec_hashtag (c :: s)) as [[m r]|] eqn:E.
  - destruct (exec_hashtag_inv _ _ _ E) as (w & Hs & _).
    injection Hs as -> _. cbn [N.eqb Pos.eqb List.length]. lia.
  - destruct (N.eqb 35 c); cbn [List.length]; lia.
Qed.

Lemma filter_drop {A} (f : A -> bool) a c b :
  f c = false -> filter f (a ++ c :: b) = filter f (a ++ b).
Proof. intros H. rewrite !filter_app. cbn [filter]. now rewrite H. Qed.

(** X5.  [parseCount] ignores commas wherever they are. *)
Theorem parseCount_ignores_commas a b :
  parseCount (a ++ 44%N :: b) = parseCount (a ++ b).
Proof.
  unfold parseCount.
  replace (remove_class (fun c => N.eqb c 44) (toLowerCase (a ++ 44%N :: b)))
    with (remove_class (fun c => N.eqb c 44) (toLowerCase (a ++ b)));
    [reflexivity|].
  unfold toLowerCase, remove_class. rewrite !flat_map_app.
  cbn [flat_map]. change (lower_unit 44%N) with [44%N]. cbn [app].
  symmetry. now apply filter_drop.
Qed.

(** X6.  [parseLikeCount] ignores commas and white space wherever they
    are. *)
Theorem parseLikeCount_ignores_separators a c b :
  (N.eqb c 44 || is_space c)%bool = true ->
  parseLikeCount (a ++ c :: b) = parseLikeCount (a ++ b).
Proof.
  intros Hc. unfold parseLikeCount.
  replace (remove_class (fun c => (N.eqb c 44 || is_space c)%bool)
             (a ++ c :: b))
    with (remove_class (fun c => (N.eqb c 44 || is_space c)%bool) (a ++ b));
    [reflexivity|].
  unfold remove_class. symmetry. apply filter_drop. now rewrite Hc.
Qed.

Lemma parseLikeCount_ignores_separators_witness :
  parseLikeCount (str "1" ++ 32%N :: str "234")
  = parseLikeCount (str "1" ++ str "234").
Proof. apply parseLikeCount_ignores_separators. reflexivity. Defined.

Ltac tests :=
  unfold in_range in *;
  repeat match goal with
  | H : (_ || _)%bool = true |- _ => apply orb_true_iff in H; destruct H
  | H : (_ && _)%bool = true |- _ => apply andb_true_iff in H; destruct H
  | H : (_ || _)%bool = false |- _ => apply orb_false_iff in H; destruct H
  | H : (_ && _)%bool = false |- _ => apply andb_false_iff in H; destruct H
  | H : negb _ = true |- _ => apply negb_true_iff in H
  | H : negb _ = false |- _ => apply negb_false_iff in H
  | H : N.leb _ _ = true |- _ => apply N.leb_le in H
  | H : N.leb _ _ = false |- _ => apply N.leb_gt in H
  | H : N.eqb _ _ = true |- _ => apply N.eqb_eq in H
  | H : N.eqb _ _ = false |- _ => apply N.eqb_neq in H
  end.

Lemma lower_unit_plain x :
  (x < 65 \/ 90 < x)%N -> (x < 192 \/ 222 < x \/ x = 215)%N ->
  x <> 8490%N -> x <> 304%N -> lower_unit x = [x].
Proof.
  intros H1 H2 H3 H4. unfold lower_unit.
  destruct (in_range 65 90 x) eqn:E1; [exfalso; tests; lia|].
  destruct (in_range 192 222 x && negb (N.eqb x 215))%bool eqn:E2;
    [exfalso; tests; lia|].
  destruct (N.eqb x 8490) eqn:E3; [exfalso; tests; lia|].
  destruct (N.eqb x 304) eqn:E4; [exfalso; tests; lia|].
  reflexivity.
Qed.

Lemma lower_unit_fixed c x : In x (lower_unit c) -> lower_unit x = [x].
Proof.
  unfold lower_unit.
  destruct (in_range 65 90 c) eqn:E1.
  { intros [<-|[]]. tests. apply lower_unit_plain; lia. }
  destruct (in_range 192 222 c && negb (N.eqb c 215))%bool eqn:E2.
  { intros [<-|[]]. tests; apply lower_unit_plain; lia. }
  destruct (N.eqb c 8490) eqn:E3.
  { intros [<-|[]]. reflexivity. }
  destruct (N.eqb c 304) eqn:E4.
  { intros [<-|[<-|[]]]; reflexivity. }
  intros [<-|[]]. tests; apply lower_unit_plain; lia.
Qed.

Lemma toLowerCase_idempotent s : toLowerCase (toLowerCase s) = toLowerCase s.
Proof.
  unfold toLowerCase. induction s as [|c s IH]; [reflexivity|].
  cbn [flat_map]. rewrite flat_map_app, IH. f_equal.
  pose proof (lower_unit_fixed c) as Hfix.
  induction (lower_unit c) as [|x l IHl]; [reflexivity|].
  cbn [flat_map]. rewrite (Hfix x (or_introl eq_refl)).
  cbn [app]. f_equal. apply IHl. intros y Hy. apply Hfix. now right.
Qed.

(** X17.  [parseCount] does not tell upper case from lower case: a text and
    its lower-cased form give the same number, so [K], [M] and [B] count as
    [k], [m] and [b]. *)
Theorem parseCount_ignores_case count :
  parseCount (toLowerCase count) = parseCount count.
Proof. unfold parseCount. now rewrite toLowerCase_idempotent. Qed.

(** Digits, possibly followed by [b]. *)
Lemma digits_b_chars ds (b : bool) c :
  forallb is_digit ds = true ->
  In c (ds ++ if b then [98%N] else [])%list ->
  (48 <= c <= 57 \/ c = 98)%N.
Proof.
  intros Hds Hin. apply in_app_or in Hin as [Hin|Hin].
  - left. rewrite forallb_forall in Hds. apply digit_range. now apply Hds.
  - right. destruct b; [destruct Hin as [<-|[]]; reflexivity | destruct Hin].
Qed.

Lemma clean_unchanged s :
  (forall c, In c s -> (48 <= c <= 57 \/ c = 98)%N) ->
  toLowerCase (remove_class (fun c => (N.eqb c 44 || is_space c)%bool) s) = s
  /\ includes s (str "k") = false /\ includes s (str "m") = false.
Proof.
  induction s as [|c s IH]; intros Hs; [repeat split; reflexivity|].
  assert (Hc : (48 <= c <= 57 \/ c = 98)%N) by (apply Hs; now left).
  destruct IH as (IH1 & IH2 & IH3); [intros x Hx; apply Hs; now right|].
  assert (Hkeep : (N.eqb c 44 || is_space c)%bool = false).
  { destruct (N.eqb c 44 || is_space c)%bool eqn:E; [|reflexivity].
    exfalso. unfold is_space in E. tests; lia. }
  repeat split.
  - unfold remove_class, toLowerCase in *. cbn [filter]. rewrite Hkeep.
    cbn [negb flat_map]. rewrite IH1.
    rewrite lower_unit_plain by lia. reflexivity.
  - cbn [includes]. rewrite IH2.
    change (str "k") with [107%N]. cbn [starts_with].
    replace (N.eqb 107 c) with false; [reflexivity|].
    symmetry. apply N.eqb_neq. lia.
  - cbn [includes]. rewrite IH3.
    change (str "m") with [109%N]. cbn [starts_with].
    replace (N.eqb 109 c) with false; [reflexivity|].
    symmetry. apply N.eqb_neq. lia.
Qed.

Lemma no_hex_prefix s :
  (forall c, In c s -> (48 <= c <= 57 \/ c = 98)%N) ->
  starts_with (str "0x") s = false /\ starts_with (str "0X") s = false.
Proof.
  intros Hs. change (str "0x") with [48%N; 120%N].
  change (str "0X") with [48%N; 88%N].
  destruct s as [|a [|b s]]; cbn [starts_with].
  - split; reflexivity.
  - split; destruct (N.eqb 48 a); reflexivity.
  - assert (Hb : (48 <= b <= 57 \/ b = 98)%N) by (apply Hs; right; now left).
    replace (N.eqb 120 b) with false by (symmetry; apply N.eqb_neq; lia).
    replace (N.eqb 88 b) with false by (symmetry; apply N.eqb_neq; lia).
    split; destruct (N.eqb 48 a); reflexivity.
Qed.

Lemma digits_are_decimal ds :
  forallb is_digit ds = true -> forallb (is_radix_digit 10) ds = true.
Proof.
  induction ds as [|c ds IH]; [reflexivity|]. cbn [forallb].
  intros H. apply andb_prop in H as [Hc Hds]. rewrite (IH Hds), andb_true_r.
  unfold is_radix_digit, digit_value. fold (is_digit c). rewrite Hc.
  apply digit_range in Hc. apply Z.ltb_lt. lia.
Qed.

(** X18.  [parseLikeCount] knows [k] and [m] only.  On a run of digits it
    gives the integer they write, and a [b] after the digits changes
    nothing: ["2b"] is 2, where [parseCount] gives 2000000000. *)
Theorem parseLikeCount_without_unit ds (b : bool) :
  ds <> [] -> forallb is_digit ds = true ->
  parseLikeCount (ds ++ if b then [98%N] else [])
  = or_else (of_Z (digits_value 10 ds)) zero.
Proof.
  intros Hne Hds. unfold parseLikeCount.
  pose proof (digits_b_chars ds b) as Hchars.
  destruct (clean_unchanged (ds ++ if b then [98%N] else [])
              (fun c => Hchars c Hds)) as (-> & -> & ->).
  f_equal. unfold parseInt.
  destruct (no_hex_prefix (ds ++ if b then [98%N] else [])
              (fun c => Hchars c Hds)) as [Hx HX].
  destruct ds as [|d ds]; [contradiction Hne; reflexivity|].
  assert (Hd : (48 <= d <= 57)%N).
  { cbn [forallb] in Hds. apply andb_prop in Hds as [Hd _].
    now apply digit_range. }
  change ((d :: ds) ++ (if b then [98%N] else []))%list
    with (d :: (ds ++ if b then [98%N] else []))%list in *.
  assert (Hsp : span is_space (d :: (ds ++ if b then [98%N] else []))
                = ([], d :: (ds ++ if b then [98%N] else []))).
  { cbn [span]. rewrite not_space by lia. reflexivity. }
  unfold jsstring, code_unit in *.
  rewrite Hsp, read_sign_plain by lia.
  cbn [Z.eqb orb andb]. rewrite Hx, HX. cbn [orb].
  change (d :: (ds ++ if b then [98%N] else []))%list
    with ((d :: ds) ++ if b then [98%N] else [])%list.
  pose proof (span_run (is_radix_digit 10) (d :: ds)
                (if b then [98%N] else [])
                (digits_are_decimal _ Hds)) as Hrun.
  unfold jsstring, code_unit in Hrun. rewrite Hrun; [reflexivity|].
  now destruct b.
Qed.

Lemma parseLikeCount_without_unit_witness :
  parseLikeCount (str "2" ++ [98%N]) = or_else (of_Z (digits_value 10 (str "2"))) zero
  /\ parseLikeCount (str "2b") = of_Z 2
  /\ parseCount (str "2b") = of_Z 2000000000.
Proof.
  split.
  - apply (parseLikeCount_without_unit (str "2") true);
      [discriminate | reflexivity].
  - vm_compute. split; reflexivity.
Defined.

End NormalizerMoreFacts.

(** ** Guards, the login wall and failed navigation *)

Module GuardFacts.
Import JsString Number Normalizers Data Async Retry Puppeteer ScrapeSpec.
Import RetrySpec.
Local Open Scope async_scope.

(** X7.  On a scraper whose page was never created every method that needs
    the page throws its own error at once: the browser is not touched and
    nothing is printed.  This holds in the three variants. *)
Theorem methods_need_a_page (D : Driver) :
  (forall st username,
      Index.page (fst st) = None ->
      Index.scrapeUserProfile D username st
      = (Throw (Error "Scraper not initialized"), st, [])
      /\ Basic.scrapeUserProfile D username st
         = (Throw (Error "Scraper not initialized"), st, []))
  /\ (forall st selector,
        Index.page (fst st) = None ->
        Index.waitForSelector D selector st
        = (Throw (Error "Page not initialized"), st, [])
        /\ Index.determinePostType D st
           = (Throw (Error "Page not initialized"), st, []))
  /\ (forall st username url credentials,
        Auth.page (fst st) = None ->
        Auth.scrapeUserProfile D username st
        = (Throw (Error "Scraper not initialized"), st, [])
        /\ Auth.determinePostType D st
           = (Throw (Error "Page not initialized"), st, [])
        /\ Auth.getPostLinks D st
           = (Throw (Error "Page not initialized"), st, [])
        /\ Auth.scrapePost D url st
           = (Throw (Error "Page not initialized"), st, [])
        /\ Auth.login D credentials st
           = (Throw (Error "Page not initialized"), st, [])).
Proof.
  split; [|split].
  - intros [self w] username H. cbn [fst] in H.
    unfold Index.scrapeUserProfile, Basic.scrapeUserProfile, Index.this, bind.
    cbn [fst]. rewrite H. split; reflexivity.
  - intros [self w] selector H. cbn [fst] in H.
    unfold Index.waitForSelector, Index.determinePostType, Index.this, bind.
    cbn [fst]. rewrite H. split; reflexivity.
  - intros [self w] username url credentials H. cbn [fst] in H.
    unfold Auth.scrapeUserProfile, Auth.determinePostType, Auth.getPostLinks,
      Auth.scrapePost, Auth.login, Auth.this, bind.
    cbn [fst]. rewrite H. repeat split; reflexivity.
Qed.

Lemma methods_need_a_page_witness :
  Index.scrapeUserProfile Sim.driver (str "demo")
    (Index.new_scraper Sim.driver, Demo.world "0" "0")
  = (Throw (Error "Scraper not initialized"),
     (Index.new_scraper Sim.driver, Demo.world "0" "0"), []).
Proof.
  apply (proj1 (methods_need_a_page Sim.driver)). reflexivity.
Defined.

(** X8.  On a scraper with a page, [waitForSelector] of src/index.ts never
    throws: it returns [true] when the wait of the page returns, and when
    that wait is rejected it prints the selector and returns [false]. *)
Theorem waitForSelector_never_throws (D : Driver) st p selector :
  Index.page (fst st) = Some p ->
  Index.waitForSelector D selector st
  = match page_waitForSelector D p selector (Some 5000) (snd st) with
    | (Ok _, w) => (Ok true, (fst st, w), [])
    | (Throw _, w) =>
        (Ok false, (fst st, w),
         [ConsoleError (TimeoutWaitingForSelector selector) None])
    end.
Proof.
  intros H. destruct st as [self w]. cbn [fst snd] in *.
  unfold Index.waitForSelector, Index.this, Index.drive, bind, try_catch,
    call, emit, ret.
  cbn [fst snd]. rewrite H. cbn [fst snd].
  now destruct (page_waitForSelector D p selector (Some 5000) w) as [[[]|e] w'].
Qed.

Lemma waitForSelector_never_throws_witness :
  Index.waitForSelector Sim.driver (str "video") Demo.index_on_post1
  = (Ok true, Demo.index_on_post1, []).
Proof.
  exact (waitForSelector_never_throws Sim.driver Demo.index_on_post1 tt
           (str "video") eq_refl).
Defined.

Lemma eqb_eq a b : JsString.eqb a b = true <-> a = b.
Proof.
  unfold JsString.eqb. destruct (list_eq_dec N.eq_dec a b); split;
    intros; congruence.
Qed.

(** X9.  The request handler installed by [initialize] aborts exactly the
    requests for images, style sheets and fonts, and lets every other request
    continue. *)
Theorem request_handler_filter resourceType :
  Index.request_handler resourceType = abort
  <-> resourceType = str "image" \/ resourceType = str "stylesheet"
      \/ resourceType = str "font".
Proof.
  unfold Index.request_handler. cbn [existsb].
  destruct (JsString.eqb resourceType (str "image")) eqn:E1;
    [apply eqb_eq in E1; cbn [orb]; tauto|].
  destruct (JsString.eqb resourceType (str "stylesheet")) eqn:E2;
    [apply eqb_eq in E2; cbn [orb]; tauto|].
  destruct (JsString.eqb resourceType (str "font")) eqn:E3;
    [apply eqb_eq in E3; cbn [orb]; tauto|].
  cbn [orb]. split; [discriminate|].
  intros [H|[H|H]]; apply (proj2 (eqb_eq _ _)) in H; congruence.
Qed.

Lemma request_handler_filter_witness :
  Index.request_handler (str "font") = abort.
Proof.
  apply (proj2 (request_handler_filter (str "font"))). right. right.
  reflexivity.
Defined.

End GuardFacts.

(** ** The login wall and a navigation that keeps failing (src/index.ts) *)

Module NavigationFacts.
Import JsString Number Normalizers Data Async Retry Puppeteer ScrapeSpec.
Import RetrySpec RetryFacts.
Local Open Scope async_scope.

Section Driven.
Variable D : Driver.

Lemma scrape_after_failed_navigation username st p e st1 t1 :
  Index.page (fst st) = Some p ->
  retryOperation_default (navigate D username) st = (Throw e, st1, t1) ->
  Index.scrapeUserProfile D username st
  = (Throw e, st1,
     (ConsoleLog (NavigatingToProfile username) :: t1
      ++ [ConsoleError (ErrorScrapingProfile username) (Some e)])%list).
Proof.
  intros Hp Hnav. destruct st as [self w]. cbn [fst] in Hp.
  unfold Index.scrapeUserProfile.
  unfold bind at 1. unfold Index.this at 1. cbn [fst]. rewrite Hp.
  unfold try_catch. unfold bind at 1. unfold emit at 1.
  unfold bind at 1. fold (navigate D username). rewrite Hnav.
  unfold bind, emit, throw. reflexivity.
Qed.

End Driven.

(** X10.  When the three navigations to the profile all fail,
    [scrapeUserProfile] of src/index.ts throws the error of the third one and
    returns no profile: it has navigated three times with waits of 1000 and
    2000 milliseconds, has read nothing from the page, and has printed the
    error once. *)
Theorem scrapeUserProfile_navigation_fails (D : Driver) username st p :
  Index.page (fst st) = Some p ->
  (forall j, (j < 3)%nat -> fails (navigate D username) st j) ->
  Index.scrapeUserProfile D username st
  = (Throw (error_at (navigate D username) st 2),
     state_before (navigate D username) st 3,
     [ConsoleLog (NavigatingToProfile username);
      Attempt; Timeout 1000; Attempt; Timeout 2000; Attempt;
      ConsoleError (ErrorScrapingProfile username)
        (Some (error_at (navigate D username) st 2))]).
Proof.
  intros Hp Hfail.
  rewrite (scrape_after_failed_navigation D username st p
             (error_at (navigate D username) st 2)
             (state_before (navigate D username) st 3)
             (attempts_trace 1000 3) Hp); [reflexivity|].
  unfold retryOperation_default, retryOperation.
  change (Z.to_nat 3) with 3%nat.
  now rewrite (loop_all_fail _ _ (navigate D username) 3 3 0 1000 Undefined st)
    by (reflexivity || assumption).
Qed.

(** The demonstration site with the profile page out of reach. *)
Lemma scrapeUserProfile_navigation_fails_witness :
  fst (fst (Index.scrapeUserProfile Sim.driver (str "demo")
              (fst (Demo.index_state "0" "0"),
               Sim.world_of [] [str "https://www.instagram.com/demo/"])))
  = Throw (Error "net::ERR_CONNECTION_FAILED").
Proof.
  rewrite (scrapeUserProfile_navigation_fails Sim.driver (str "demo")
             (fst (Demo.index_state "0" "0"),
              Sim.world_of [] [str "https://www.instagram.com/demo/"]) tt).
  - reflexivity.
  - reflexivity.
  - intros j Hj. exists (Error "net::ERR_CONNECTION_FAILED").
    destruct j as [|[|[|j]]]; [reflexivity .. | lia].
Defined.


(** X11.  The login wall.  In src/index.ts, when the profile page loads and
    the login form appears within the wait, [scrapeUserProfile] throws
    ["Login required to view this profile"] after one navigation and reads
    nothing more.  In the variant with login, a scraper that is not logged in
    does the same when the page shows the text of the login wall. *)
Theorem scrapeUserProfile_login_wall (D : Driver) :
  (forall username st p w1 w2,
      Index.page (fst st) = Some p ->
      goto D p (Index.profile_url username) (Some 30000) (snd st)
      = (Ok tt, w1) ->
      page_waitForSelector D p
        (str ("input[name=" ++ dq ++ "username" ++ dq ++ "]")) (Some 5000) w1
      = (Ok tt, w2) ->
      Index.scrapeUserProfile D username st
      = (Throw (Error "Login required to view this profile"), (fst st, w2),
         [ConsoleLog (NavigatingToProfile username); Attempt;
          ConsoleError (ErrorScrapingProfile username)
            (Some (Error "Login required to view this profile"))]))
  /\ (forall username st p x w0 w1 w2,
        Auth.page (fst st) = Some p ->
        Auth.isLoggedIn (fst st) = false ->
        Math_random D (snd st) = (x, w0) ->
        goto D p (Auth.profile_url username) (Some 300000) w0 = (Ok tt, w1) ->
        page_query D p (str "text/Log in to Instagram") w1 = (Ok true, w2) ->
        Auth.scrapeUserProfile D username st
        = (Throw (Error "Login required to view this profile"), (fst st, w2),
           [Delay (add (mul x (of_Z 2000)) (of_Z 1000));
            ConsoleError (ErrorScrapingProfile username)
              (Some (Error "Login required to view this profile"))])).
Proof.
  split.
  - intros username [self w] p w1 w2 Hp Hgoto Hwait. cbn [fst snd] in *.
    unfold Index.scrapeUserProfile, Index.waitForSelector,
      retryOperation_default, retryOperation.
    change (Z.to_nat 3) with 3%nat.
    unfold bind at 1. unfold Index.this at 1. cbn [fst]. rewrite Hp.
    unfold try_catch. unfold bind at 1. unfold emit at 1.
    unfold bind at 1. rewrite retry_loop_step.
    unfold Index.on_page at 1. cbn [fst snd]. rewrite Hp.
    unfold Index.drive at 1. cbn [fst snd]. rewrite Hgoto.
    unfold bind at 1. unfold bind at 1. unfold Index.this at 1.
    cbn [fst]. rewrite Hp.
    unfold try_catch, bind, call, Index.drive. cbn [fst snd].
    rewrite Hwait. reflexivity.
  - intros username [self w] p x w0 w1 w2 Hp Hlog Hrand Hgoto Hquery.
    cbn [fst snd] in *.
    unfold Auth.scrapeUserProfile.
    unfold bind at 1. unfold Auth.this at 1. cbn [fst]. rewrite Hp.
    unfold try_catch. unfold bind at 1. unfold Auth.random at 1.
    cbn [fst snd]. rewrite Hrand.
    unfold bind at 1. unfold Auth.delay at 1. unfold emit at 1.
    unfold bind at 1. unfold Auth.drive at 1. cbn [fst snd]. rewrite Hgoto.
    unfold bind at 1. rewrite Hlog.
    unfold bind at 1. unfold Auth.drive at 1. cbn [fst snd]. rewrite Hquery.
    reflexivity.
Qed.

Lemma scrapeUserProfile_login_wall_witness :
  fst (fst (Auth.scrapeUserProfile Sim.driver (str "demo")
              (fst (Demo.auth_state "0" "0"),
               Sim.world_of
                 [(str "https://www.instagram.com/demo/",
                   {| Sim.doc_pathname := [];
                      Sim.doc_matches :=
                        [(str "text/Log in to Instagram",
                          [Sim.text_element "Log in to Instagram"])] |})]
                 [])))
  = Throw (Error "Login required to view this profile").
Proof.
  erewrite (proj2 (scrapeUserProfile_login_wall Sim.driver) (str "demo")
              _ tt); reflexivity.
Defined.

(** X19.  The two variants of part_000 navigate without the retry runner:
    one failed navigation to the profile ends [scrapeUserProfile], which
    prints the error and throws it. *)
Theorem scrapeUserProfile_single_navigation (D : Driver) :
  (forall username st p e w1,
      Index.page (fst st) = Some p ->
      goto D p (Index.profile_url username) (Some 30000) (snd st)
      = (Throw e, w1) ->
      Basic.scrapeUserProfile D username st
      = (Throw e, (fst st, w1),
         [ConsoleLog (NavigatingToProfile username);
          ConsoleError (ErrorScrapingProfile username) (Some e)]))
  /\ (forall username st p x w0 e w1,
        Auth.page (fst st) = Some p ->
        Math_random D (snd st) = (x, w0) ->
        goto D p (Auth.profile_url username) (Some 300000) w0
        = (Throw e, w1) ->
        Auth.scrapeUserProfile D username st
        = (Throw e, (fst st, w1),
           [Delay (add (mul x (of_Z 2000)) (of_Z 1000));
            ConsoleError (ErrorScrapingProfile username) (Some e)])).
Proof.
  split.
  - intros username [self w] p e w1 Hp Hgoto. cbn [fst snd] in *.
    unfold Basic.scrapeUserProfile.
    unfold bind at 1. unfold Index.this at 1. cbn [fst]. rewrite Hp.
    unfold try_catch. unfold bind at 1. unfold emit at 1.
    unfold bind at 1. unfold call at 1. unfold Index.drive at 1.
    cbn [fst snd]. rewrite Hgoto. reflexivity.
  - intros username [self w] p x w0 e w1 Hp Hrand Hgoto. cbn [fst snd] in *.
    unfold Auth.scrapeUserProfile.
    unfold bind at 1. unfold Auth.this at 1. cbn [fst]. rewrite Hp.
    unfold try_catch. unfold bind at 1. unfold Auth.random at 1.
    cbn [fst snd]. rewrite Hrand.
    unfold bind at 1. unfold Auth.delay at 1. unfold emit at 1.
    unfold bind at 1. unfold Auth.drive at 1. cbn [fst snd]. rewrite Hgoto.
    reflexivity.
Qed.

Lemma scrapeUserProfile_single_navigation_witness :
  Basic.scrapeUserProfile Sim.driver (str "demo")
    (fst (Demo.index_state "0" "0"),
     Sim.world_of [] [str "https://www.instagram.com/demo/"])
  = (Throw (Error "net::ERR_CONNECTION_FAILED"),
     (fst (Demo.index_state "0" "0"),
      Sim.world_of [] [str "https://www.instagram.com/demo/"]),
     [ConsoleLog (NavigatingToProfile (str "demo"));
      ConsoleError (ErrorScrapingProfile (str "demo"))
        (Some (Error "net::ERR_CONNECTION_FAILED"))]).
Proof.
  exact (proj1 (scrapeUserProfile_single_navigation Sim.driver) (str "demo")
           (fst (Demo.index_state "0" "0"),
            Sim.world_of [] [str "https://www.instagram.com/demo/"])
           tt _ _ eq_refl eq_refl).
Defined.

End NavigationFacts.

(** ** The posts of a returned profile *)

Module PostFacts.
Import JsString Number Normalizers Data Async Retry Puppeteer ScrapeSpec.
Import AsyncFacts.
Local Open Scope async_scope.

Section Driven.
Variable D : Driver.

Ltac step := eapply ensures_bind; [apply ensures_trivial | intros ? _].

Lemma index_post_tagged link :
  ensures (Index.process_post D link) tagged_from_caption.
Proof.
  unfold Index.process_post. do 5 step. now apply ensures_ret.
Qed.

Lemma index_posts_tagged links : forall posts,
  Forall tagged_from_caption posts ->
  ensures (Index.process_posts D links posts) (Forall tagged_from_caption).
Proof.
  induction links as [|link rest IH]; intros posts Hposts.
  - now apply ensures_ret.
  - cbn [Index.process_posts].
    eapply ensures_bind; [|intros posts' H'; exact (IH posts' H')].
    apply ensures_try_catch.
    + eapply ensures_bind; [apply index_post_tagged | intros post Hpost].
      apply ensures_ret. apply Forall_app. split; [exact Hposts|].
      now constructor.
    + intros e. step. now apply ensures_ret.
Qed.

Lemma index_profile_tagged username :
  ensures (Index.scrapeUserProfile D username)
          (fun profile => Forall tagged_from_caption (posts profile)).
Proof.
  unfold Index.scrapeUserProfile. step.
  match goal with |- context [Index.page ?x] => destruct (Index.page x) end;
    [|apply ensures_throw].
  apply ensures_try_catch; [|intros e; step; apply ensures_throw].
  do 12 step.
  eapply ensures_bind; [apply index_posts_tagged; constructor|].
  intros collected H. now apply ensures_ret.
Qed.

Lemma auth_post_tagged url :
  ensures (Auth.scrapePost D url) tagged_from_caption.
Proof.
  unfold Auth.scrapePost. step.
  match goal with |- context [Auth.page ?x] => destruct (Auth.page x) end;
    [|apply ensures_throw].
  do 4 step. now apply ensures_ret.
Qed.

Lemma auth_posts_tagged links : forall posts,
  Forall tagged_from_caption posts ->
  ensures (Auth.scrape_posts D links posts) (Forall tagged_from_caption).
Proof.
  induction links as [|link rest IH]; intros posts Hposts.
  - now apply ensures_ret.
  - cbn [Auth.scrape_posts].
    eapply ensures_bind; [|intros posts' H'; exact (IH posts' H')].
    apply ensures_try_catch.
    + eapply ensures_bind; [apply auth_post_tagged | intros post Hpost].
      do 2 step. apply ensures_ret. apply Forall_app. split; [exact Hposts|].
      now constructor.
    + intros e. step. now apply ensures_ret.
Qed.

Lemma auth_profile_tagged username :
  ensures (Auth.scrapeUserProfile D username)
          (fun profile => Forall tagged_from_caption (posts profile)).
Proof.
  unfold Auth.scrapeUserProfile. step.
  match goal with |- context [Auth.page ?x] => destruct (Auth.page x) end;
    [|apply ensures_throw].
  apply ensures_try_catch; [|intros e; step; apply ensures_throw].
  do 7 step.
  eapply ensures_bind; [apply auth_posts_tagged; constructor|].
  intros collected H. now apply ensures_ret.
Qed.

Lemma basic_posts_ok p links : forall posts,
  Forall basic_post_ok posts ->
  ensures (Basic.process_posts D p links posts) (Forall basic_post_ok).
Proof.
  induction links as [|link rest IH]; intros posts Hposts.
  - now apply ensures_ret.
  - cbn [Basic.process_posts].
    eapply ensures_bind; [|intros posts' H'; exact (IH posts' H')].
    assert (Hpushed : forall doc,
               Forall basic_post_ok
                 (posts ++
                  [{| type := image;
                      likes := parseLikeCount
                                 (Index.raw_likes (Index.read_post D doc));
                      hashtags := extractHashtags
                                    (Index.raw_caption (Index.read_post D doc));
                      caption := Index.raw_caption (Index.read_post D doc);
                      postUrl := link;
                      timestamp :=
                        Index.raw_timestamp (Index.read_post D doc) |}])).
    { intros doc. apply Forall_app. split; [exact Hposts|].
      constructor; [|constructor]. split; reflexivity. }
    apply ensures_try_catch.
    + step. eapply ensures_bind; [apply ensures_trivial | intros doc _]. step.
      apply ensures_try_catch.
      * step. apply ensures_ret. apply Hpushed.
      * intros e. step. apply ensures_ret. apply Hpushed.
    + intros e. step. now apply ensures_ret.
Qed.

Lemma basic_profile_ok username :
  ensures (Basic.scrapeUserProfile D username)
          (fun profile => Forall basic_post_ok (posts profile)).
Proof.
  unfold Basic.scrapeUserProfile. step.
  match goal with |- context [Index.page ?x] => destruct (Index.page x) end;
    [|apply ensures_throw].
  apply ensures_try_catch; [|intros e; step; apply ensures_throw].
  do 12 step.
  eapply ensures_bind; [apply basic_posts_ok; constructor|].
  intros collected H. now apply ensures_ret.
Qed.

End Driven.

(** X12.  In a profile returned by any of the three variants, the hashtags
    of every post are exactly those that [extractHashtags] finds in the
    caption of that post; in the first variant every post has the type
    ["image"]. *)
Theorem posts_tagged_from_their_captions (D : Driver) username :
  (forall st profile st' t,
      Index.scrapeUserProfile D username st = (Ok profile, st', t) ->
      Forall tagged_from_caption (posts profile))
  /\ (forall st profile st' t,
        Auth.scrapeUserProfile D username st = (Ok profile, st', t) ->
        Forall tagged_from_caption (posts profile))
  /\ (forall st profile st' t,
        Basic.scrapeUserProfile D username st = (Ok profile, st', t) ->
        Forall (fun post => tagged_from_caption post /\ type post = image)
               (posts profile)).
Proof.
  split; [|split]; intros st profile st' t Hrun.
  - exact (index_profile_tagged D username _ _ _ _ Hrun).
  - exact (auth_profile_tagged D username _ _ _ _ Hrun).
  - exact (basic_profile_ok D username _ _ _ _ Hrun).
Qed.

Lemma posts_tagged_from_their_captions_witness :
  Forall tagged_from_caption (posts Demo.index_profile).
Proof.
  apply (proj1 (posts_tagged_from_their_captions Sim.driver (str "demo"))
           (Demo.index_state "10.5k" "200") Demo.index_profile
           (snd (fst (Index.scrapeUserProfile Sim.driver (str "demo")
                        (Demo.index_state "10.5k" "200"))))
           (snd (Index.scrapeUserProfile Sim.driver (str "demo")
                   (Demo.index_state "10.5k" "200")))).
  vm_compute. reflexivity.
Defined.

End PostFacts.

(** ** Reels, the login flag, a failed start and a failed pause *)

Module LifecycleFacts.
Import JsString Number Normalizers Data Async Retry Puppeteer ScrapeSpec.
Local Open Scope async_scope.

Lemma starts_with_prefix p : forall s,
  starts_with p s = true <-> exists b, s = (p ++ b)%list.
Proof.
  induction p as [|a p IH]; intros s.
  - cbn. split; [intros _; now exists s | reflexivity].
  - destruct s as [|c s]; cbn [starts_with].
    + split; [discriminate | intros [b Hb]; discriminate Hb].
    + rewrite andb_true_iff, N.eqb_eq, IH. split.
      * intros [-> [b ->]]. now exists b.
      * intros [b Hb]. injection Hb as -> ->. split; [reflexivity|].
        now exists b.
Qed.

Lemma includes_substring p : forall s,
  includes s p = true <-> exists a b, s = (a ++ p ++ b)%list.
Proof.
  induction s as [|c s IH].
  - cbn [includes]. rewrite orb_false_r, starts_with_prefix. split.
    + intros [b Hb]. now exists [], b.
    + intros (a & b & H). destruct a; [now exists b|discriminate H].
  - cbn [includes]. rewrite orb_true_iff, starts_with_prefix, IH. split.
    + intros [[b Hb]|(a & b & H)].
      * now exists [], b.
      * exists (c :: a), b. now rewrite H.
    + intros (a & b & H). destruct a as [|x a].
      * left. now exists b.
      * right. injection H as -> ->. now exists a, b.
Qed.

(** X13.  In the variant with login a page is classified as a reel exactly
    when it has no [video] element, no element labelled "Next", and a path
    that contains [/reel/]. *)
Theorem reel_needs_the_route (D : Driver) (doc : Document D) :
  Auth.post_type_of D doc = reel
  <-> querySelector D doc (str "video") = None
      /\ querySelector D doc
           (str ("[aria-label=" ++ dq ++ "Next" ++ dq ++ "]")) = None
      /\ exists a b, pathname D doc = (a ++ str "/reel/" ++ b)%list.
Proof.
  unfold Auth.post_type_of. rewrite <- includes_substring.
  destruct (querySelector D doc (str "video")); cbn [found].
  - split; [discriminate | intros [H _]; discriminate H].
  - destruct (querySelector D doc _); cbn [found].
    + split; [discriminate | intros (_ & H & _); discriminate H].
    + destruct (includes (pathname D doc) (str "/reel/")).
      * split; auto.
      * split; [discriminate | intros (_ & _ & H); discriminate H].
Qed.

Lemma reel_needs_the_route_witness :
  Auth.post_type_of Sim.driver
    {| Sim.doc_pathname := str "/reel/Cx1/"; Sim.doc_matches := [] |}
  = reel.
Proof.
  apply (proj2 (reel_needs_the_route Sim.driver
                  {| Sim.doc_pathname := str "/reel/Cx1/";
                     Sim.doc_matches := [] |})).
  split; [reflexivity|]. split; [reflexivity|].
  exists [], (str "Cx1/"). reflexivity.
Defined.

Section Flag.
Variable D : Driver.

Lemma unchanged_drive {A} (f : World D -> result A * World D) :
  unchanged (Auth.drive D f).
Proof.
  intros st r st' t. unfold Auth.drive.
  destruct (f (snd st)) as [r1 w1]. now intros H; injection H as <- <- <-.
Qed.

Lemma unchanged_emit ev : unchanged (@emit (Auth.State D) ev).
Proof. intros st r st' t H. now injection H as <- <- <-. Qed.

Lemma unchanged_ret {A} (a : A) : unchanged (@ret (Auth.State D) A a).
Proof. intros st r st' t H. now injection H as <- <- <-. Qed.

Lemma unchanged_throw {A} e : unchanged (@throw (Auth.State D) A e).
Proof. intros st r st' t H. now injection H as <- <- <-. Qed.

Lemma unchanged_bind {A B} (m : Async.M (Auth.State D) A)
  (f : A -> Async.M (Auth.State D) B) :
  unchanged m -> (forall a, unchanged (f a)) -> unchanged (bind m f).
Proof.
  intros Hm Hf st r st' t. unfold bind.
  destruct (m st) as [[[a|e] st1] t1] eqn:Em.
  - destruct (f a st1) as [[r2 st2] t2] eqn:Ef.
    intros H; injection H as <- <- <-.
    now rewrite (Hf a _ _ _ _ Ef), (Hm _ _ _ _ Em).
  - intros H; injection H as <- <- <-. exact (Hm _ _ _ _ Em).
Qed.

Lemma unchanged_try_catch {A} (m : Async.M (Auth.State D) A) h :
  unchanged m -> (forall e, unchanged (h e)) -> unchanged (try_catch m h).
Proof.
  intros Hm Hh st r st' t. unfold try_catch.
  destruct (m st) as [[[a|e] st1] t1] eqn:Em.
  - intros H; injection H as <- <- <-. exact (Hm _ _ _ _ Em).
  - destruct (h e st1) as [[r2 st2] t2] eqn:Eh.
    intros H; injection H as <- <- <-.
    now rewrite (Hh e _ _ _ _ Eh), (Hm _ _ _ _ Em).
Qed.

Lemma logs_in_after {A B} (m : Async.M (Auth.State D) A)
  (f : A -> Async.M (Auth.State D) B) :
  unchanged m -> (forall a, logs_in (f a)) -> logs_in (bind m f).
Proof.
  intros Hm Hf st r st' t. unfold bind.
  destruct (m st) as [[[a|e] st1] t1] eqn:Em.
  - destruct (f a st1) as [[r2 st2] t2] eqn:Ef.
    intros H; injection H as <- <- <-.
    pose proof (Hf a _ _ _ _ Ef) as H2.
    now rewrite (Hm _ _ _ _ Em) in H2.
  - intros H; injection H as <- <- <-. exact (Hm _ _ _ _ Em).
Qed.

Lemma logs_in_tail :
  logs_in (bind (Auth.set_isLoggedIn D true)
             (fun _ => bind (emit (ConsoleLog LoggedIn))
                         (fun _ => Auth.delay D (of_Z 3000)))).
Proof. intros st r st' t H. now injection H as <- <- <-. Qed.

Lemma unchanged_this : unchanged (Auth.this D).
Proof. intros st r st' t H. now injection H as <- <- <-. Qed.

Lemma logs_in_throw {A} e : logs_in (@throw (Auth.State D) A e).
Proof. intros st r st' t H. now injection H as <- <- <-. Qed.

Lemma logs_in_try_catch {A} (m : Async.M (Auth.State D) A) h :
  logs_in m ->
  (forall e st r st' t, h e st = (r, st', t) ->
     fst st' = fst st /\ exists e', r = Throw e') ->
  logs_in (try_catch m h).
Proof.
  intros Hm Hh st r st' t. unfold try_catch.
  destruct (m st) as [[[a|e] st1] t1] eqn:Em.
  - intros H; injection H as <- <- <-. exact (Hm _ _ _ _ Em).
  - destruct (h e st1) as [[r2 st2] t2] eqn:Eh.
    intros H; injection H as <- <- <-.
    destruct (Hh _ _ _ _ _ Eh) as [Hst [e' ->]].
    rewrite Hst. exact (Hm _ _ _ _ Em).
Qed.

Lemma login_logs_in credentials : logs_in (Auth.login D credentials).
Proof.
  unfold Auth.login.
  apply logs_in_after; [apply unchanged_this | intros self].
  destruct (Auth.page self) as [p|]; [|apply logs_in_throw].
  apply logs_in_try_catch.
  - apply logs_in_after; [apply unchanged_drive | intros _].
    apply logs_in_after.
    { apply unchanged_try_catch; [|intros e; apply unchanged_emit].
      apply unchanged_bind; [apply unchanged_drive | intros [|]].
      - apply unchanged_bind; [apply unchanged_drive | intros _].
        apply unchanged_emit.
      - apply unchanged_ret. }
    intros _.
    do 6 (apply logs_in_after; [apply unchanged_drive | intros _]).
    apply logs_in_after; [apply unchanged_drive | intros loginError].
    apply logs_in_after; [|intros _; apply logs_in_tail].
    destruct loginError; [apply unchanged_throw | apply unchanged_ret].
  - intros e s0 r0 s0' t0 H0. unfold bind, emit, throw in H0.
    injection H0 as <- <- <-. split; [reflexivity | now eexists].
Qed.

End Flag.

(** X14.  [login] leaves the browser and the page of the scraper as they
    are.  When it returns, the scraper is logged in; when it throws, the
    flag [isLoggedIn] is what it was before the call. *)
Theorem login_sets_the_flag (D : Driver) credentials st r st' t :
  Auth.login D credentials st = (r, st', t) ->
  Auth.browser (fst st') = Auth.browser (fst st)
  /\ Auth.page (fst st') = Auth.page (fst st)
  /\ match r with
     | Ok _ => Auth.isLoggedIn (fst st') = true
     | Throw _ => Auth.isLoggedIn (fst st') = Auth.isLoggedIn (fst st)
     end.
Proof.
  intros H. apply (login_logs_in D credentials) in H.
  destruct r; rewrite H; cbn; auto.
Qed.

Lemma login_sets_the_flag_witness :
  Auth.isLoggedIn
    (fst (snd (fst (Auth.login Sim.driver
                      {| Auth.cred_username := str "someone";
                         Auth.cred_password := str "secret" |}
                      (fst (Demo.auth_state "0" "0"),
                       Sim.world_of
                         [(str "https://www.instagram.com/accounts/login/",
                           {| Sim.doc_pathname := [];
                              Sim.doc_matches :=
                                [(Auth.sel_username, [Sim.text_element ""]);
                                 (Auth.sel_password, [Sim.text_element ""])]
                           |})] [])))))
  = true.
Proof.
  match goal with
  | |- Auth.isLoggedIn (fst (snd (fst ?run))) = true =>
      destruct run as [[r st'] t] eqn:E
  end.
  pose proof (login_sets_the_flag _ _ _ _ _ _ E) as (_ & _ & H).
  vm_compute in E. injection E as ? ? ?; subst. exact H.
Defined.

(** X15.  [initialize] of src/index.ts prints and rethrows the error of a
    failed start.  When the launch fails the scraper is left without a
    browser.  When the browser is launched and the page cannot be created,
    the browser stays in the field [browser], so that the [close] which
    follows closes it. *)
Theorem initialize_failure (D : Driver) :
  (forall st e w1,
      launch D Index.launch_options (snd st) = (Throw e, w1) ->
      Index.initialize D st
      = (Throw e, (fst st, w1), [ConsoleError FailedToInitialize (Some e)]))
  /\ (forall st b w1 e w2,
        launch D Index.launch_options (snd st) = (Ok b, w1) ->
        newPage D b w1 = (Throw e, w2) ->
        Index.initialize D st
        = (Throw e,
           ({| Index.browser := Some b; Index.page := Index.page (fst st) |},
            w2),
           [ConsoleError FailedToInitialize (Some e)])
        /\ Index.close D
             ({| Index.browser := Some b; Index.page := Index.page (fst st) |},
              w2)
           = (fst (browser_close D b w2),
              ({| Index.browser := Some b;
                  Index.page := Index.page (fst st) |},
               snd (browser_close D b w2)), [])).
Proof.
  split.
  - intros [self w] e w1 Hl. cbn [fst snd] in *.
    unfold Index.initialize, try_catch. unfold bind at 1.
    unfold call at 1. unfold Index.drive at 1. cbn [fst snd]. rewrite Hl.
    reflexivity.
  - intros [self w] b w1 e w2 Hl Hn. cbn [fst snd] in *. split.
    + unfold Index.initialize, try_catch. unfold bind at 1.
      unfold call at 1. unfold Index.drive at 1. cbn [fst snd]. rewrite Hl.
      unfold bind at 1. unfold Index.set_browser at 1. cbn [fst snd].
      unfold bind at 1. unfold call at 1. unfold Index.drive at 1.
      cbn [fst snd]. rewrite Hn. reflexivity.
    + unfold Index.close, Index.this, Index.drive, bind, call.
      cbn [fst snd Index.browser].
      now destruct (browser_close D b w2).
Qed.

Lemma initialize_failure_witness :
  Index.initialize Sim.driver
    (Index.new_scraper Sim.driver,
     Sim.with_faults [str "newPage"] (Demo.world "0" "0"))
  = (Throw (Error "rejected: newPage"),
     (Index.Build_Scraper Sim.driver (Some tt) None,
      Sim.with_faults [str "newPage"] (Demo.world "0" "0")),
     [ConsoleError FailedToInitialize (Some (Error "rejected: newPage"))]).
Proof.
  exact (proj1 (proj2 (initialize_failure Sim.driver)
                  (Index.new_scraper Sim.driver,
                   Sim.with_faults [str "newPage"] (Demo.world "0" "0"))
                  tt _ (Error "rejected: newPage") _ eq_refl eq_refl)).
Defined.

(** X16.  In the first variant the post is pushed before the pause that
    follows it.  When the page of a link loads and is read but the pause is
    rejected, the post of the link is kept and the error is printed for that
    link. *)
Theorem post_kept_when_pause_fails (D : Driver) p link posts st doc w1 w2 e w3 :
  goto D p link None (snd st) = (Ok tt, w1) ->
  evaluate D p w1 = (Ok doc, w2) ->
  waitForTimeout D p 1000 w2 = (Throw e, w3) ->
  Basic.process_posts D p [link] posts st
  = (Ok (posts ++
         [{| type := image;
             likes := parseLikeCount (Index.raw_likes (Index.read_post D doc));
             hashtags :=
               extractHashtags (Index.raw_caption (Index.read_post D doc));
             caption := Index.raw_caption (Index.read_post D doc);
             postUrl := link;
             timestamp := Index.raw_timestamp (Index.read_post D doc) |}])%list,
     (fst st, w3),
     [ConsoleLog (ProcessedPost link);
      ConsoleError (ErrorProcessingPost link) (Some e)]).
Proof.
  intros Hg He Hw. destruct st as [self w]. cbn [fst snd] in *.
  cbn [Basic.process_posts].
  unfold bind, try_catch, call, emit, ret, Index.drive. cbn [fst snd].
  rewrite Hg. cbn [fst snd]. rewrite He. cbn [fst snd]. rewrite Hw.
  reflexivity.
Qed.

Lemma post_kept_when_pause_fails_witness :
  Basic.process_posts Sim.driver tt [str Demo.post1] []
    (fst (Demo.index_state "0" "0"),
     Sim.with_faults [str "waitForTimeout"] (Demo.world "0" "0"))
  = (Ok [{| type := image;
            likes := of_Z 1200;
            hashtags := [str "#beach"; str "#travel"];
            caption := str "Sunset #beach #travel";
            postUrl := str Demo.post1;
            timestamp := str "2024-05-01T10:00:00.000Z" |}],
     (fst (Demo.index_state "0" "0"),
      snd (Sim.sim_goto (str Demo.post1)
             (Sim.with_faults [str "waitForTimeout"] (Demo.world "0" "0")))),
     [ConsoleLog (ProcessedPost (str Demo.post1));
      ConsoleError (ErrorProcessingPost (str Demo.post1))
        (Some (Error "rejected: waitForTimeout"))]).
Proof.
  pose proof (post_kept_when_pause_fails Sim.driver tt (str Demo.post1) []
                (fst (Demo.index_state "0" "0"),
                 Sim.with_faults [str "waitForTimeout"] (Demo.world "0" "0"))
                Demo.video_post _ _ (Error "rejected: waitForTimeout") _
                eq_refl eq_refl eq_refl) as H.
  rewrite H. vm_compute. reflexivity.
Defined.

Ltac innermost_call :=
  match goal with
  | |- context [let (_, _) := ?c in _] =>
      lazymatch c with
      | context [let (_, _) := _ in _] => fail
      | _ => destruct c as [[?|?] ?]; cbv beta iota; cbn [fst snd app]
      end
  end.

(** X20.  A call of [initialize] that returns leaves a scraper with a
    browser and a page, so that [scrapeUserProfile] passes its guard; without
    credentials the variant with login does not log in. *)
Theorem initialize_success (D : Driver) :
  (forall st st' t,
      Index.initialize D st = (Ok tt, st', t) ->
      exists b p,
        fst st' = {| Index.browser := Some b; Index.page := Some p |})
  /\ (forall st st' t,
        Auth.initialize D None st = (Ok tt, st', t) ->
        exists b p,
          fst st' = {| Auth.browser := Some b; Auth.page := Some p;
                       Auth.isLoggedIn := Auth.isLoggedIn (fst st) |}).
Proof.
  split.
  - intros [self w] st' t.
    cbv [Index.initialize try_catch bind call Index.drive Index.set_browser
         Index.set_page emit throw ret]. cbn [fst snd].
    repeat innermost_call; intros H; try discriminate H.
    injection H as <- _. now eexists _, _.
  - intros [self w] st' t.
    cbv [Auth.initialize try_catch bind Auth.drive Auth.set_browser
         Auth.set_page emit throw ret]. cbn [fst snd].
    repeat innermost_call; intros H; try discriminate H.
    injection H as <- _. now eexists _, _.
Qed.

Lemma initialize_success_witness :
  exists b p,
    fst (snd (fst (Index.initialize Sim.driver
                     (Index.new_scraper Sim.driver, Demo.world "0" "0"))))
    = {| Index.browser := Some b; Index.page := Some p |}.
Proof.
  apply (proj1 (initialize_success Sim.driver)
           (Index.new_scraper Sim.driver, Demo.world "0" "0") _ []).
  vm_compute. reflexivity.
Defined.

End LifecycleFacts.
